(** * cpp4sqlite: a shallow embedding of the typed access layer

    The development follows [include/cpp4sqlite.h] and [src/cpp4sqlite.cpp].
    The classes [Connection], [Binder], [ResultColumn] and [Resultset] become
    modules of the same names; member functions become functions over an
    explicit object state, and a C++ exception becomes the [Throw] outcome
    of a small state-and-exception monad.

    The SQLite engine is an external collaborator.  It is represented by a
    scripted model: a statement carries the outcomes its future
    [sqlite3_step] calls will report, and a database handle carries the
    outcomes of its future [sqlite3_exec] calls.  What the linked library
    fixes, the texts of [sqlite3_errstr] and the length limit of a bound
    value, is carried by the statement as well.  Every engine entry point
    the layer calls is a function of that model, named as in the C API.

    Two things are left open by C++ and the platform and are parameters
    here: the order in which the arguments of [std::make_tuple] are
    evaluated in [rowT], and what a [std::ifstream] reports for a path. *)

From Stdlib Require Import ZArith List String Ascii Bool Lia DecimalString.
From stdpp Require Import base list strings gmap.

Open Scope Z_scope.

(** ** Exceptions and the state-and-exception monad *)

(** The layer throws [std::runtime_error] with a message; [std::vector::at]
    throws [std::out_of_range]; constructing a [std::string] of a size that
    cannot be had throws [std::bad_alloc] or [std::length_error]. *)
Inductive exception : Type :=
| runtime_error (what : string)
| out_of_range
| bad_alloc
| length_error.

Inductive outcome (A : Type) : Type :=
| Ok (a : A)
| Throw (e : exception).
Arguments Ok {A} a.
Arguments Throw {A} e.

Definition M (S A : Type) : Type := S -> outcome A * S.

Definition ret {S A : Type} (a : A) : M S A := fun s => (Ok a, s).

Definition throw {S A : Type} (e : exception) : M S A := fun s => (Throw e, s).

Definition bindM {S A B : Type} (m : M S A) (k : A -> M S B) : M S B :=
  fun s =>
    match m s with
    | (Ok a, s') => k a s'
    | (Throw e, s') => (Throw e, s')
    end.

Notation "x <- m ;; k" := (bindM m (fun x => k))
  (at level 100, m at next level, right associativity).
Notation "m ;;; k" := (bindM m (fun _ => k))
  (at level 100, right associativity).

(** A [const] member function reads the object and leaves it as it is. *)
Definition const_call {S A : Type} (f : S -> outcome A) : M S A :=
  fun s => (f s, s).

(** ** Data of the C++ side *)

(** [std::to_string(int)]. *)
Definition to_string (n : Z) : string := NilZero.string_of_int (Z.to_int n).

(** [static_cast<int>] of a size: two's complement wrap to 32 bits. *)
Definition INT_MAX : Z := 2147483647.
Definition static_cast_int (n : Z) : Z := (n + 2 ^ 31) mod 2 ^ 32 - 2 ^ 31.

(** A [double] is carried as its IEEE-754 bit pattern; the layer only passes
    doubles through. *)
Definition double : Type := Z.

(** A [std::string] is a byte sequence; its [data()] is followed by a
    terminator, so [strlen] stops at the first zero byte or at the end. *)
Fixpoint strlen (s : string) : nat :=
  match s with
  | EmptyString => 0%nat
  | String c rest => if Ascii.eqb c zero then 0%nat else S (strlen rest)
  end.

(** The bytes a C API reads from a terminated buffer. *)
Fixpoint c_str (s : string) : string :=
  match s with
  | EmptyString => EmptyString
  | String c rest => if Ascii.eqb c zero then EmptyString else String c (c_str rest)
  end.

(** The first [n] bytes of a buffer. *)
Fixpoint take_bytes (n : nat) (s : string) : string :=
  match n, s with
  | S n', String c rest => String c (take_bytes n' rest)
  | _, _ => EmptyString
  end.

Definition SqlColName : Type := string.
Definition SqlField : Type := (SqlColName * string)%type.
Definition SqlFieldS : Type := string.
Definition SqlRow : Type := list SqlField.
Definition SqlRowS : Type := list string.
Definition SqlTable : Type := list SqlRow.

(** A value-initialised [SqlField]: both strings empty. *)
Definition default_field : SqlField := ("", "").

(** [fixNullStr]: a null [char const*] reads as the empty string. *)
Definition fixNullStr (str : option string) : string :=
  match str with
  | None => ""
  | Some s => s
  end.

(** ** The engine: result codes and storage classes *)

Definition SQLITE_OK : Z := 0.
Definition SQLITE_TOOBIG : Z := 18.
Definition SQLITE_MISUSE : Z := 21.
Definition SQLITE_RANGE : Z := 25.
Definition SQLITE_ROW : Z := 100.
Definition SQLITE_DONE : Z := 101.

Definition SQLITE_INTEGER : Z := 1.
Definition SQLITE_FLOAT : Z := 2.
Definition SQLITE_TEXT : Z := 3.
Definition SQLITE_BLOB : Z := 4.
Definition SQLITE_NULL : Z := 5.

Inductive DataClass : Type := Integer | Float | Text | Blob.

Definition class_code (c : DataClass) : Z :=
  match c with
  | Integer => SQLITE_INTEGER
  | Float => SQLITE_FLOAT
  | Text => SQLITE_TEXT
  | Blob => SQLITE_BLOB
  end.

(** One column of the row a statement points at, as the engine reports it:
    either NULL, or a value of some storage class together with what the
    engine's converting readers return for it.  [as_bytes] is what
    [sqlite3_column_text] and [sqlite3_column_blob] point at, of length
    [sqlite3_column_bytes]. *)
Inductive Cell : Type :=
| CellNull
| CellData (cls : DataClass) (as_int as_int64 : Z) (as_double : double)
           (as_bytes : string).

Definition int_cell (v : Z) : Cell :=
  CellData Integer (static_cast_int v) v 0 (to_string v).
Definition text_cell (s : string) : Cell := CellData Text 0 0 0 s.
Definition blob_cell (s : string) : Cell := CellData Blob 0 0 0 s.

(** What a parameter slot of a statement holds. *)
Inductive Bound : Type :=
| BoundNull
| BoundInt (v : Z)
| BoundDouble (d : double)
| BoundText (s : string)
| BoundBlob (s : string).

(** What one [sqlite3_step] will report. *)
Inductive StepOutcome : Type :=
| OutRow (cells : list Cell)
| OutDone
| OutError (code : Z).

(** The state-changing engine calls made on a statement, in order. *)
Inductive NativeCall : Type :=
| call_reset
| call_step
| call_bind_int (pos : Z) (v : Z)
| call_bind_double (pos : Z) (d : double)
| call_bind_text (pos : Z) (buffer : string) (n : Z)
| call_bind_blob (pos : Z) (buffer : string) (n : Z)
| call_bind_null (pos : Z).

(** What the linked engine library fixes for every statement: the text
    [sqlite3_errstr] has for a result code (the API allows a null pointer),
    and the largest string or blob, in bytes, that a bind takes
    (SQLITE_LIMIT_LENGTH; the layer never changes it). *)
Record sqlite3_library : Type := mk_library {
  lib_errstr : Z -> option string;
  lib_limit_length : Z
}.

Record sqlite3_stmt : Type := mk_stmt {
  st_names : list string;         (* result column names *)
  st_slots : list Bound;          (* one slot per placeholder, 1-indexed by the API *)
  st_busy : bool;                 (* stepped more recently than reset *)
  st_row : option (list Cell);    (* the row pointed at, if any *)
  st_script : list StepOutcome;   (* outcomes of the coming steps *)
  st_reset_rc : Z;                (* code of the last failed step *)
  st_log : list NativeCall;       (* state-changing calls so far *)
  st_library : sqlite3_library    (* the engine the statement belongs to *)
}.

Definition logged (c : NativeCall) (st : sqlite3_stmt) : list NativeCall :=
  st_log st ++ [c].

(** *** Queries on a statement *)

Definition sqlite3_bind_parameter_count (st : sqlite3_stmt) : Z :=
  Z.of_nat (length (st_slots st)).

Definition sqlite3_column_count (st : sqlite3_stmt) : Z :=
  Z.of_nat (length (st_names st)).

Definition sqlite3_data_count (st : sqlite3_stmt) : Z :=
  match st_row st with
  | Some cells => Z.of_nat (length cells)
  | None => 0
  end.

Definition sqlite3_column_name (st : sqlite3_stmt) (i : Z) : string :=
  if i <? 0 then "" else nth (Z.to_nat i) (st_names st) "".

(** Without a current row, or out of range, the engine answers as for NULL. *)
Definition column_cell (st : sqlite3_stmt) (i : Z) : Cell :=
  match st_row st with
  | Some cells => if i <? 0 then CellNull else nth (Z.to_nat i) cells CellNull
  | None => CellNull
  end.

Definition sqlite3_column_type (st : sqlite3_stmt) (i : Z) : Z :=
  match column_cell st i with
  | CellNull => SQLITE_NULL
  | CellData cls _ _ _ _ => class_code cls
  end.

Definition sqlite3_column_int (st : sqlite3_stmt) (i : Z) : Z :=
  match column_cell st i with
  | CellNull => 0
  | CellData _ v _ _ _ => v
  end.

Definition sqlite3_column_int64 (st : sqlite3_stmt) (i : Z) : Z :=
  match column_cell st i with
  | CellNull => 0
  | CellData _ _ v _ _ => v
  end.

Definition sqlite3_column_double (st : sqlite3_stmt) (i : Z) : double :=
  match column_cell st i with
  | CellNull => 0
  | CellData _ _ _ d _ => d
  end.

(** A null pointer for NULL. *)
Definition sqlite3_column_text (st : sqlite3_stmt) (i : Z) : option string :=
  match column_cell st i with
  | CellNull => None
  | CellData _ _ _ _ b => Some b
  end.

Definition sqlite3_column_blob (st : sqlite3_stmt) (i : Z) : option string :=
  sqlite3_column_text st i.

Definition sqlite3_column_bytes (st : sqlite3_stmt) (i : Z) : Z :=
  match column_cell st i with
  | CellNull => 0
  | CellData _ _ _ _ b => Z.of_nat (String.length b)
  end.

(** *** State-changing calls on a statement *)

Definition sqlite3_step (st : sqlite3_stmt) : Z * sqlite3_stmt :=
  match st_script st with
  | OutRow cells :: rest =>
      (SQLITE_ROW,
       mk_stmt (st_names st) (st_slots st) true (Some cells) rest 0
               (logged call_step st) (st_library st))
  | OutError code :: rest =>
      (code,
       mk_stmt (st_names st) (st_slots st) true None rest code
               (logged call_step st) (st_library st))
  | OutDone :: rest =>
      (SQLITE_DONE,
       mk_stmt (st_names st) (st_slots st) true None rest 0
               (logged call_step st) (st_library st))
  | [] =>
      (SQLITE_DONE,
       mk_stmt (st_names st) (st_slots st) true None [] 0
               (logged call_step st) (st_library st))
  end.

(** [sqlite3_reset] reports the code of the last failed step. *)
Definition sqlite3_reset (st : sqlite3_stmt) : Z * sqlite3_stmt :=
  (st_reset_rc st,
   mk_stmt (st_names st) (st_slots st) false None (st_script st) 0
           (logged call_reset st) (st_library st)).

(** A string or blob of more bytes than the engine's length limit is
    refused. *)
Definition too_big (limit : Z) (v : Bound) : bool :=
  match v with
  | BoundText s | BoundBlob s => limit <? Z.of_nat (String.length s)
  | _ => false
  end.

(** A bind on a busy statement is a misuse; a position outside [1..m] is a
    range error; a value over the length limit is too big, and the slot,
    which the engine has cleared by then, stays NULL; otherwise the slot is
    overwritten. *)
Definition engine_bind (call : NativeCall) (pos : Z) (v : Bound)
    (st : sqlite3_stmt) : Z * sqlite3_stmt :=
  if st_busy st then
    (SQLITE_MISUSE,
     mk_stmt (st_names st) (st_slots st) (st_busy st) (st_row st)
             (st_script st) (st_reset_rc st) (logged call st) (st_library st))
  else if (pos <? 1) || (Z.of_nat (length (st_slots st)) <? pos) then
    (SQLITE_RANGE,
     mk_stmt (st_names st) (st_slots st) (st_busy st) (st_row st)
             (st_script st) (st_reset_rc st) (logged call st) (st_library st))
  else if too_big (lib_limit_length (st_library st)) v then
    (SQLITE_TOOBIG,
     mk_stmt (st_names st) (<[Z.to_nat (pos - 1) := BoundNull]> (st_slots st))
             (st_busy st) (st_row st) (st_script st) (st_reset_rc st)
             (logged call st) (st_library st))
  else
    (SQLITE_OK,
     mk_stmt (st_names st) (<[Z.to_nat (pos - 1) := v]> (st_slots st))
             (st_busy st) (st_row st) (st_script st) (st_reset_rc st)
             (logged call st) (st_library st)).

Definition sqlite3_bind_int (pos v : Z) : sqlite3_stmt -> Z * sqlite3_stmt :=
  engine_bind (call_bind_int pos v) pos (BoundInt v).

Definition sqlite3_bind_double (pos : Z) (d : double)
    : sqlite3_stmt -> Z * sqlite3_stmt :=
  engine_bind (call_bind_double pos d) pos (BoundDouble d).

(** A negative length means: up to the terminator. *)
Definition sqlite3_bind_text (pos : Z) (buffer : string) (n : Z)
    : sqlite3_stmt -> Z * sqlite3_stmt :=
  engine_bind (call_bind_text pos buffer n) pos
    (BoundText (if n <? 0 then c_str buffer else take_bytes (Z.to_nat n) buffer)).

(** A negative length is refused. *)
Definition sqlite3_bind_blob (pos : Z) (buffer : string) (n : Z)
    (st : sqlite3_stmt) : Z * sqlite3_stmt :=
  if n <? 0 then
    (SQLITE_MISUSE,
     mk_stmt (st_names st) (st_slots st) (st_busy st) (st_row st)
             (st_script st) (st_reset_rc st)
             (logged (call_bind_blob pos buffer n) st) (st_library st))
  else
    engine_bind (call_bind_blob pos buffer n) pos
      (BoundBlob (take_bytes (Z.to_nat n) buffer)) st.

Definition sqlite3_bind_null (pos : Z) : sqlite3_stmt -> Z * sqlite3_stmt :=
  engine_bind (call_bind_null pos) pos BoundNull.

(** [sqlite3_errstr]: the text the linked library has for a result code. *)
Definition sqlite3_errstr (lib : sqlite3_library) (code : Z) : option string :=
  lib_errstr lib code.

Definition errString (lib : sqlite3_library) (errornum : Z) : string :=
  fixNullStr (sqlite3_errstr lib errornum).

(** ** The file system seen by a file-backed parameter *)

(** How constructing the read buffer [std::string str(fsize, 0)] fails when
    [fsize] is not a size that can be had. *)
Inductive buffer_failure : Type := fails_bad_alloc | fails_length_error.

Definition buffer_exception (f : buffer_failure) : exception :=
  match f with
  | fails_bad_alloc => bad_alloc
  | fails_length_error => length_error
  end.

(** Opening a [std::ifstream] in binary mode at the end of the file either
    fails, or yields a stream.  On a regular file [tellg] is the size of
    [content], and the full read succeeds or reports failure.  A path that
    opens without being a regular file (a directory, say) has a [tellg]
    that is not a size the read buffer can be constructed with. *)
Inductive ifstream : Type :=
| stream_failed
| stream_open (content : string) (read_ok : bool)
| stream_unsized (f : buffer_failure).

Definition filesystem : Type := string -> ifstream.

(** ** Parameter Binder *)

(** The static types [Binder::bind] distinguishes; any other type matches
    no branch. *)
Inductive Param : Type :=
| ParamInt (v : Z)
| ParamDouble (d : double)
| ParamCStr (s : string)
| ParamString (s : string)
| ParamPath (p : string)
| ParamNullptr
| ParamOther.

Module Binder.

Record t : Type := mk { bindPosn : Z; stmnt : sqlite3_stmt }.

(** An engine call on the borrowed statement. *)
Definition native (f : sqlite3_stmt -> Z * sqlite3_stmt) : M t Z :=
  fun b =>
    let (rc, st') := f (stmnt b) in
    (Ok rc, mk (bindPosn b) st').

Definition checkResult (res : Z) : M t unit :=
  fun b =>
    if negb (res =? 0) then
      (Throw (runtime_error ("bind fail at posn " +:+ to_string (bindPosn b))), b)
    else (Ok tt, b).

Definition reset : M t unit :=
  res <- native sqlite3_reset ;;
  if negb (res =? 0) then
    fun b =>
      (Throw (runtime_error ("Binder::reset error: "
                             +:+ errString (st_library (stmnt b)) res)), b)
  else
    fun b => (Ok tt, mk 0 (stmnt b)).

Definition checkBindParamCount (size : Z) : M t unit :=
  const_call (fun b =>
    let count := sqlite3_bind_parameter_count (stmnt b) in
    if negb (size =? count) then
      Throw (runtime_error (if size >? count then "too many bind params"
                            else "too few bind params"))
    else Ok tt).

Definition bindInt (param : Z) : M t unit :=
  fun b => (res <- native (sqlite3_bind_int (bindPosn b) param) ;; checkResult res) b.

Definition bindDouble (param : double) : M t unit :=
  fun b => (res <- native (sqlite3_bind_double (bindPosn b) param) ;; checkResult res) b.

Definition bindText (param : string) : M t unit :=
  fun b => (res <- native (sqlite3_bind_text (bindPosn b) param (-1)) ;; checkResult res) b.

Definition bindBlob (param : string) : M t unit :=
  fun b =>
    let size := static_cast_int (Z.of_nat (String.length param)) in
    (res <- native (sqlite3_bind_blob (bindPosn b) param size) ;; checkResult res) b.

Definition bind (fs : filesystem) (param : Param) : M t unit :=
  (fun b => (Ok tt, mk (bindPosn b + 1) (stmnt b))) ;;;
  match param with
  | ParamInt v => bindInt v
  | ParamDouble d => bindDouble d
  | ParamCStr s => bindText s
  | ParamString s =>
      if Nat.eqb (strlen s) (String.length s) then bindText s else bindBlob s
  | ParamPath p =>
      match fs p with
      | stream_failed => throw (runtime_error ("Invalid filePath: " +:+ p))
      | stream_unsized f => throw (buffer_exception f)
      | stream_open content read_ok =>
          if negb read_ok then ret tt else bindBlob content
      end
  | ParamNullptr =>
      fun b => (res <- native (sqlite3_bind_null (bindPosn b)) ;; checkResult res) b
  | ParamOther => ret tt
  end.

(** The fold [(bind(arg), ...)], left to right. *)
Fixpoint doBinds (fs : filesystem) (values : list Param) : M t unit :=
  match values with
  | [] => ret tt
  | v :: rest => bind fs v ;;; doBinds fs rest
  end.

Definition setParams (fs : filesystem) (values : list Param) : M t unit :=
  checkBindParamCount (Z.of_nat (length values)) ;;;
  reset ;;;
  doBinds fs values.

End Binder.

(** ** Column Reader *)

(** The static types [ResultColumn::read] distinguishes; any other requested
    type reaches the final [throw]. *)
Inductive ReadType : Type := T_int | T_long_long | T_double | T_string | T_other.

Inductive ReadValue : Type :=
| V_int (v : Z)
| V_long_long (v : Z)
| V_double (d : double)
| V_string (s : string).

(** [std::string {pointer, size}]: [size] bytes from the pointer; a null
    pointer comes with size zero. *)
Definition string_of_buffer (pointer : option string) (size : Z) : string :=
  match pointer with
  | None => EmptyString
  | Some b => take_bytes (Z.to_nat size) b
  end.

Module ResultColumn.

(** The statement pointer every column holds is the cursor's own; the
    statement is passed to each member function.  [type] is read from the
    engine once, when the column object is constructed. *)
Record t : Type := mk { posn : Z; type : Z }.

Definition make (st : sqlite3_stmt) (posn : Z) : t :=
  mk posn (sqlite3_column_type st posn).

Definition name (st : sqlite3_stmt) (c : t) : SqlColName :=
  sqlite3_column_name st (posn c).

Definition readText (st : sqlite3_stmt) (c : t) : string :=
  string_of_buffer (sqlite3_column_text st (posn c))
                   (sqlite3_column_bytes st (posn c)).

Definition readBlob (st : sqlite3_stmt) (c : t) : string :=
  string_of_buffer (sqlite3_column_blob st (posn c))
                   (sqlite3_column_bytes st (posn c)).

Definition fieldS (st : sqlite3_stmt) (c : t) : string := readText st c.

Definition field (st : sqlite3_stmt) (c : t) : SqlField :=
  (name st c, fieldS st c).

Definition read (T : ReadType) (st : sqlite3_stmt) (c : t)
    : outcome (option ReadValue) :=
  if type c =? SQLITE_NULL then Ok None
  else
    match T with
    | T_int => Ok (Some (V_int (sqlite3_column_int st (posn c))))
    | T_long_long => Ok (Some (V_long_long (sqlite3_column_int64 st (posn c))))
    | T_double => Ok (Some (V_double (sqlite3_column_double st (posn c))))
    | T_string =>
        Ok (Some (V_string (if type c =? SQLITE_BLOB then readBlob st c
                            else readText st c)))
    | T_other =>
        Throw (runtime_error ("Read: Unrecognised read type requested" +:+ " for `"
                              +:+ name st c +:+ "`"))
    end.

End ResultColumn.

(** ** Row Cursor *)

(** [std::vector::at] with an [int] index: a negative index converts to a
    huge unsigned one. *)
Definition at_ {A : Type} (v : list A) (i : Z) : outcome A :=
  if i <? 0 then Throw out_of_range
  else
    match v !! Z.to_nat i with
    | Some x => Ok x
    | None => Throw out_of_range
    end.

(** The loop [for (int i = 0; i < count; ++i) out.push_back(f(i))]; an
    exception leaves the loop. *)
Fixpoint collect {A : Type} (f : Z -> outcome A) (indices : list nat)
    : outcome (list A) :=
  match indices with
  | [] => Ok []
  | i :: rest =>
      match f (Z.of_nat i) with
      | Throw e => Throw e
      | Ok a =>
          match collect f rest with
          | Throw e => Throw e
          | Ok l => Ok (a :: l)
          end
      end
  end.

Definition upto (count : Z) : list nat := seq 0 (Z.to_nat count).

(** The orders in which a compiler may evaluate the [n] arguments of a
    call: every permutation of the argument indices.  Two of them are in
    use: first argument first, and last argument first. *)
Definition evaluation_order (n : nat) (order : list nat) : Prop :=
  Permutation order (seq 0 n).

Definition left_to_right (n : nat) : list nat := seq 0 n.

Definition right_to_left (n : nat) : list nat := reverse (seq 0 n).

(** The files [toFile] sees and writes: the existing files with their
    bytes, and whether opening a path for writing succeeds. *)
Record disk : Type := mk_disk {
  disk_files : gmap string string;
  disk_writable : string -> bool
}.

Module Resultset.

Record t : Type := mk {
  stmnt : sqlite3_stmt;
  hasRow : bool;
  columnPosn : Z;
  columns : list ResultColumn.t
}.

Definition countColumns (rs : t) : Z := sqlite3_column_count (stmnt rs).

Definition countData (rs : t) : Z := sqlite3_data_count (stmnt rs).

Definition empty (rs : t) : bool := negb (hasRow rs).

Definition step : M t unit :=
  fun rs =>
    let (res, st') := sqlite3_step (stmnt rs) in
    if res =? SQLITE_DONE then
      (Ok tt, mk st' false (columnPosn rs) (columns rs))
    else if res =? SQLITE_ROW then
      (Ok tt, mk st' true 0 (columns rs))
    else
      (Throw (runtime_error ("Resultset::step error: " +:+ to_string res)),
       mk st' (hasRow rs) (columnPosn rs) (columns rs)).

(** The constructor: one step, then one column object per selected column. *)
Definition new (st : sqlite3_stmt) : outcome t :=
  match step (mk st false 0 []) with
  | (Throw e, _) => Throw e
  | (Ok _, rs) =>
      Ok (mk (stmnt rs) (hasRow rs) (columnPosn rs)
             (map (fun i => ResultColumn.make (stmnt rs) (Z.of_nat i))
                  (upto (countColumns rs))))
  end.

(** The index of the first column object carrying [name]. *)
Fixpoint posn_from (st : sqlite3_stmt) (cols : list ResultColumn.t)
    (name : SqlColName) (index : Z) : option Z :=
  match cols with
  | [] => None
  | column :: rest =>
      if String.eqb (ResultColumn.name st column) name then Some index
      else posn_from st rest name (index + 1)
  end.

Definition posn (name : SqlColName) (rs : t) : outcome Z :=
  match posn_from (stmnt rs) (columns rs) name 0 with
  | Some index => Ok index
  | None => Throw (runtime_error (name +:+ " col name not found"))
  end.

(** [field(int)] *)
Definition field (posn : Z) (rs : t) : outcome SqlField :=
  if negb (hasRow rs) then Ok default_field
  else
    match at_ (columns rs) posn with
    | Throw e => Throw e
    | Ok column => Ok (ResultColumn.field (stmnt rs) column)
    end.

(** [fieldS(int)] *)
Definition fieldS (posn : Z) (rs : t) : outcome string :=
  if negb (hasRow rs) then Ok EmptyString
  else
    match at_ (columns rs) posn with
    | Throw e => Throw e
    | Ok column => Ok (ResultColumn.fieldS (stmnt rs) column)
    end.

(** [fieldS(SqlColName const&)] *)
Definition fieldS_by_name (name : SqlColName) (rs : t) : outcome string :=
  match posn name rs with
  | Throw e => Throw e
  | Ok p => fieldS p rs
  end.

Definition nextFieldS : M t string :=
  fun rs =>
    let rs' := mk (stmnt rs) (hasRow rs) (columnPosn rs + 1) (columns rs) in
    (fieldS (columnPosn rs') rs', rs').

(** [field(SqlColName const&)] *)
Definition field_by_name (name : SqlColName) (rs : t) : outcome SqlField :=
  match posn name rs with
  | Throw e => Throw e
  | Ok p =>
      match at_ (columns rs) p with
      | Throw e => Throw e
      | Ok column => Ok (ResultColumn.field (stmnt rs) column)
      end
  end.

Definition nextField : M t SqlField :=
  fun rs =>
    let rs' := mk (stmnt rs) (hasRow rs) (columnPosn rs + 1) (columns rs) in
    (field (columnPosn rs') rs', rs').

Definition row : M t (option SqlRow) :=
  fun rs =>
    if negb (hasRow rs) then (Ok None, rs)
    else
      let colCount := countData rs in
      match collect (fun i => field i rs) (upto colCount) with
      | Throw e => (Throw e, rs)
      | Ok r => (step ;;; ret (Some r)) rs
      end.

Definition rowS : M t (option SqlRowS) :=
  fun rs =>
    if negb (hasRow rs) then (Ok None, rs)
    else
      match collect (fun i => fieldS i rs) (upto (countData rs)) with
      | Throw e => (Throw e, rs)
      | Ok r => (step ;;; ret (Some r)) rs
      end.

(** [fieldT<T>()] *)
Definition fieldT (T : ReadType) (rs : t) : outcome (option ReadValue) :=
  match at_ (columns rs) (columnPosn rs) with
  | Throw e => Throw e
  | Ok column => ResultColumn.read T (stmnt rs) column
  end.

(** [fieldT<T>(int)] *)
Definition fieldT_at (T : ReadType) (posn : Z) (rs : t)
    : outcome (option ReadValue) :=
  if negb (hasRow rs) then Ok None
  else
    match at_ (columns rs) posn with
    | Throw e => Throw e
    | Ok column => ResultColumn.read T (stmnt rs) column
    end.

(** [fieldT<T>(SqlColName const&)] *)
Definition fieldT_by_name (T : ReadType) (name : SqlColName) (rs : t)
    : outcome (option ReadValue) :=
  match posn name rs with
  | Throw e => Throw e
  | Ok p => fieldT_at T p rs
  end.

Definition nextFieldT (T : ReadType) : M t (option ReadValue) :=
  fun rs =>
    let rs' := mk (stmnt rs) (hasRow rs) (columnPosn rs + 1) (columns rs) in
    (fieldT T rs', rs').

Definition checkTypeCount (count : Z) : M t unit :=
  const_call (fun rs =>
    let colCount := countData rs in
    if negb (colCount =? count) then
      Throw (runtime_error (if count >? colCount then "too many types"
                            else "too few types"))
    else Ok tt).

(** The lambda [incPos]: yields the sequential column cursor, then
    increments it. *)
Definition incPos : M t Z :=
  fun rs =>
    (Ok (columnPosn rs),
     mk (stmnt rs) (hasRow rs) (columnPosn rs + 1) (columns rs)).

(** The pack expansion [fieldT<T>(incPos())...], the arguments of
    [std::make_tuple].  C++ leaves the order in which the arguments of a
    call are evaluated to the compiler and only keeps their evaluations
    from interleaving: [order] lists the argument indices in the order the
    compiler evaluates them ([left_to_right], [right_to_left] or any other
    permutation).  Each evaluation takes the next value of the column
    cursor; what it yields is kept with its argument index. *)
Fixpoint readTuple (Ts : list ReadType) (order : list nat)
    : M t (list (nat * option ReadValue)) :=
  match order with
  | [] => ret []
  | i :: rest =>
      p <- incPos ;;
      v <- const_call (fieldT_at (nth i Ts T_other) p) ;;
      vs <- readTuple Ts rest ;;
      ret ((i, v) :: vs)
  end.

(** [std::make_tuple]: element [i] of the tuple is the value of argument
    [i], whenever it was evaluated. *)
Definition make_tuple (n : nat) (args : list (nat * option ReadValue))
    : list (option ReadValue) :=
  map (fun i =>
         match find (fun a => Nat.eqb (fst a) i) args with
         | Some a => snd a
         | None => None
         end)
      (seq 0 n).

Definition rowT (Ts : list ReadType) (order : list nat)
    : M t (option (list (option ReadValue))) :=
  fun rs =>
    if negb (hasRow rs) then (Ok None, rs)
    else
      (checkTypeCount (Z.of_nat (length Ts)) ;;;
       args <- readTuple Ts order ;;
       step ;;;
       ret (Some (make_tuple (length Ts) args))) rs.

Inductive FileReplace : Type := no | yes.

(** [toFile]: the existence check, then an output stream on the path
    (truncating it when it opens) and one write of column 0 of the
    statement; the byte count is returned whether the stream opened or
    not. *)
Definition toFile (fileSpec : string) (replace : FileReplace) (rs : t)
    (d : disk) : outcome Z * disk :=
  let file_exists :=
    match disk_files d !! fileSpec with Some _ => true | None => false end in
  if file_exists && negb (match replace with yes => true | no => false end) then
    (Throw (runtime_error ("File already exists: " +:+ fileSpec)), d)
  else
    let blob := sqlite3_column_blob (stmnt rs) 0 in
    let size := sqlite3_column_bytes (stmnt rs) 0 in
    (Ok size,
     if disk_writable d fileSpec then
       mk_disk (<[fileSpec := string_of_buffer blob size]> (disk_files d))
               (disk_writable d)
     else d).

End Resultset.

(** ** Prepared Statement *)

Module PreparedStatement.

(** [execute]: a fresh [Binder] binds the values, then a fresh cursor is
    constructed over the same statement. *)
Definition execute (fs : filesystem) (values : list Param) (st : sqlite3_stmt)
    : outcome Resultset.t :=
  match Binder.setParams fs values (Binder.mk 0 st) with
  | (Throw e, _) => Throw e
  | (Ok _, b) => Resultset.new (Binder.stmnt b)
  end.

End PreparedStatement.

(** ** Connection and the one-shot query *)

(** What one [sqlite3_exec] will do: the rows it hands to the callback, as
    column name and nullable text value, then its result code and the error
    message it leaves (a null pointer when there is none). *)
Record ExecOutcome : Type := mk_exec {
  ex_rows : list (list (string * option string));
  ex_rc : Z;
  ex_errmsg : option string
}.

Record sqlite3 : Type := mk_db { db_script : list ExecOutcome }.

Definition SQLITE_ABORT : Z := 4.

(** The engine calls the callback once per row and aborts the query when it
    answers non-zero. *)
Fixpoint run_callbacks {H : Type}
    (callback : H -> Z -> list (option string) -> list string -> Z * H)
    (rows : list (list (string * option string))) (host : H) : bool * H :=
  match rows with
  | [] => (true, host)
  | r :: rest =>
      let (rc, host') :=
        callback host (Z.of_nat (length r)) (map snd r) (map fst r) in
      if rc =? 0 then run_callbacks callback rest host' else (false, host')
  end.

Definition sqlite3_exec {H : Type} (db : sqlite3) (sql : string)
    (callback : H -> Z -> list (option string) -> list string -> Z * H)
    (host : H) : (Z * option string) * H * sqlite3 :=
  match db_script db with
  | [] => ((SQLITE_OK, None), host, db)
  | o :: rest =>
      let (completed, host') := run_callbacks callback (ex_rows o) host in
      if completed then ((ex_rc o, ex_errmsg o), host', mk_db rest)
      else ((SQLITE_ABORT, Some "query aborted"%string), host', mk_db rest)
  end.

Module Connection.

Record t : Type := mk {
  sqliteDb : sqlite3;
  errorMsg : string;
  results : SqlTable
}.

Definition processSqlite3Callback (c : t) (count : Z)
    (values : list (option string)) (names : list string) : Z * t :=
  let row :=
    map (fun i => (nth i names EmptyString, fixNullStr (nth i values None)))
        (upto count) in
  (0, mk (sqliteDb c) (errorMsg c) (results c ++ [row])).

(** The free function [callback] forwards to the host connection. *)
Definition callback (host : t) (numFields : Z) (values : list (option string))
    (names : list string) : Z * t :=
  processSqlite3Callback host numFields values names.

Definition quickQuery (queryStr : string) : M t SqlTable :=
  fun c =>
    let cleared := mk (sqliteDb c) (errorMsg c) [] in
    let '((_, error), host, db) :=
      sqlite3_exec (sqliteDb cleared) queryStr callback cleared in
    let c' := mk db (fixNullStr error) (results host) in
    if negb (String.eqb (errorMsg c') EmptyString) then
      (Throw (runtime_error ("Connection::QuickQuery error: " +:+ errorMsg c')), c')
    else (Ok (results c'), c').

End Connection.

(** ** Error kinds of the interface

    The source throws [std::runtime_error] carrying a message, and
    [std::out_of_range] from [std::vector::at]; the kinds below name them. *)

Definition BindArityError (e : exception) : Prop :=
  e = runtime_error "too many bind params" \/ e = runtime_error "too few bind params".

Definition TypeArityError (e : exception) : Prop :=
  e = runtime_error "too many types" \/ e = runtime_error "too few types".

Definition IndexOutOfRange (e : exception) : Prop := e = out_of_range.

Definition ColumnNotFound (name : SqlColName) (e : exception) : Prop :=
  e = runtime_error (name +:+ " col name not found").



Definition StepError (e : exception) : Prop :=
  exists code, e = runtime_error ("Resultset::step error: " +:+ to_string code).

(** ** Auxiliary notions used by the statements *)

(** The bytes the engine holds for a cell; none for NULL. *)
Definition cell_bytes (c : Cell) : string :=
  match c with
  | CellNull => EmptyString
  | CellData _ _ _ _ b => b
  end.

(** A byte string with an embedded zero byte. *)
Fixpoint has_zero_byte (s : string) : bool :=
  match s with
  | EmptyString => false
  | String c rest => Ascii.eqb c zero || has_zero_byte rest
  end.

(** The engine hands out rows as wide as the statement's column list, and
    reports an error with a code of its own, neither [SQLITE_ROW] nor
    [SQLITE_DONE]. *)
Definition outcome_ok (width : nat) (o : StepOutcome) : Prop :=
  match o with
  | OutRow cells => length cells = width
  | OutDone => True
  | OutError code => code <> SQLITE_ROW /\ code <> SQLITE_DONE
  end.

Definition stmt_ok (st : sqlite3_stmt) : Prop :=
  Forall (outcome_ok (length (st_names st))) (st_script st)
  /\ match st_row st with
     | Some cells => length cells = length (st_names st)
     | None => True
     end.

(** What the next [sqlite3_step] will report; a finished script keeps
    answering done. *)
Definition next_outcome (st : sqlite3_stmt) : StepOutcome :=
  match st_script st with
  | [] => OutDone
  | o :: _ => o
  end.

(** A cursor as the constructor and the member functions leave it: column
    object [i] sits at index [i], there is one per selected column, and
    [hasRow] says that the statement points at a row. *)
Definition cursor_ok (rs : Resultset.t) : Prop :=
  stmt_ok (Resultset.stmnt rs)
  /\ length (Resultset.columns rs) = length (st_names (Resultset.stmnt rs))
  /\ (forall (i : nat) c, Resultset.columns rs !! i = Some c ->
        ResultColumn.posn c = Z.of_nat i)
  /\ (Resultset.hasRow rs = true -> st_row (Resultset.stmnt rs) <> None).

(** The current row, rendered as [row()] and [rowS()] render it. *)
Definition current_cells (st : sqlite3_stmt) : list Cell :=
  match st_row st with
  | Some cells => cells
  | None => []
  end.

Definition rendered_row (st : sqlite3_stmt) : SqlRow :=
  map (fun i => (nth i (st_names st) EmptyString,
                 cell_bytes (nth i (current_cells st) CellNull)))
      (seq 0 (length (current_cells st))).

Definition rendered_rowS (st : sqlite3_stmt) : SqlRowS :=
  map cell_bytes (current_cells st).

(** What a run of binds may change on the statement while the position
    counter goes from [p] to [q]: the log grows, and only the slots at
    indices [p] to [q - 1] are touched. *)
Definition binds_in (p q : Z) (b b' : Binder.t) : Prop :=
  (exists l, st_log (Binder.stmnt b') = st_log (Binder.stmnt b) ++ l)
  /\ st_busy (Binder.stmnt b') = st_busy (Binder.stmnt b)
  /\ length (st_slots (Binder.stmnt b')) = length (st_slots (Binder.stmnt b))
  /\ (forall i : nat, (Z.of_nat i < p \/ q <= Z.of_nat i) ->
        st_slots (Binder.stmnt b') !! i = st_slots (Binder.stmnt b) !! i).

(** ** Example objects *)

(** A file system with one readable file, one file whose read fails, the
    directory they are in, and nothing else. *)
Definition example_fs : filesystem :=
  fun p =>
    if String.eqb p "/data/photo.bin" then
      stream_open (String "H" (String zero (String "l" EmptyString))) true
    else if String.eqb p "/data/broken.bin" then
      stream_open "xyz" false
    else if String.eqb p "/data" then
      stream_unsized fails_bad_alloc
    else stream_failed.

(** The texts of an engine build for the primary result codes 0 to 28; it
    has none for codes 2, 16, 22 and 24. *)
Definition example_messages : list (option string) :=
  [Some "not an error"; Some "SQL logic error"; None;
   Some "access permission denied"; Some "query aborted";
   Some "database is locked"; Some "database table is locked";
   Some "out of memory"; Some "attempt to write a readonly database";
   Some "interrupted"; Some "disk I/O error";
   Some "database disk image is malformed"; Some "unknown operation";
   Some "database or disk is full"; Some "unable to open database file";
   Some "locking protocol"; None; Some "database schema has changed";
   Some "string or blob too big"; Some "constraint failed";
   Some "datatype mismatch"; Some "bad parameter or other API misuse";
   None; Some "authorization denied"; None;
   Some "column index out of range"; Some "file is not a database";
   Some "notification message"; Some "warning message"]%string.

(** An engine build with those texts, looked up by the low byte of the
    code, and the default length limit of 1,000,000,000 bytes. *)
Definition example_library : sqlite3_library :=
  mk_library
    (fun code =>
       if code =? 516 then Some "abort due to ROLLBACK"%string
       else if code =? SQLITE_ROW then Some "another row available"%string
       else if code =? SQLITE_DONE then Some "no more rows available"%string
       else
         match nth (Z.to_nat (Z.land code 255)) example_messages None with
         | Some text => Some text
         | None => Some "unknown error"%string
         end)
    1000000000.

(** [SELECT id, name FROM t WHERE a > ? AND b < ?], about to yield two rows;
    the second has a NULL [id]. *)
Definition example_stmt : sqlite3_stmt :=
  mk_stmt ["id"; "name"]%string [BoundNull; BoundNull] false None
          [OutRow [int_cell 7; text_cell "ann"];
           OutRow [CellNull; text_cell "bob"];
           OutDone]
          0 [] example_library.


(** The same query over an empty table. *)
Definition empty_stmt : sqlite3_stmt :=
  mk_stmt ["id"; "name"]%string [BoundNull; BoundNull] false None [OutDone] 0 []
          example_library.




(** The bytes [H], zero, [l]. *)
Definition bytes_with_zero : string :=
  String "H" (String zero (String "l" EmptyString)).

(** The typed reads of the arguments of [Ts], taken in the order [order],
    at consecutive column positions from [k] on: the argument evaluated
    first reads column [k], the next one column [k + 1], and so on; the
    first failing read ends them. *)
Fixpoint reads_at (rs : Resultset.t) (k : Z) (Ts : list ReadType)
    (order : list nat) : outcome (list (nat * option ReadValue)) :=
  match order with
  | [] => Ok []
  | i :: rest =>
      match Resultset.fieldT_at (nth i Ts T_other) k rs with
      | Throw e => Throw e
      | Ok v =>
          match reads_at rs (k + 1) Ts rest with
          | Throw e => Throw e
          | Ok vs => Ok ((i, v) :: vs)
          end
      end
  end.

(** The sequential accessors, and a caller that makes a series of such calls
    (catching what they throw). *)
Inductive SeqCall : Type :=
| seq_nextField
| seq_nextFieldS
| seq_nextFieldT (T : ReadType).

Definition run_seq_call (rs : Resultset.t) (c : SeqCall) : Resultset.t :=
  match c with
  | seq_nextField => snd (Resultset.nextField rs)
  | seq_nextFieldS => snd (Resultset.nextFieldS rs)
  | seq_nextFieldT T => snd (Resultset.nextFieldT T rs)
  end.

Definition run_seq (calls : list SeqCall) (rs : Resultset.t) : Resultset.t :=
  fold_left run_seq_call calls rs.

(** The cursor after [n] calls of [nextField]. *)
Fixpoint after_nextField (n : nat) (rs : Resultset.t) : Resultset.t :=
  match n with
  | O => rs
  | S k => snd (Resultset.nextField (after_nextField k rs))
  end.

(** The cursor [execute] returns for the example query. *)
Definition example_cursor : Resultset.t :=
  Eval vm_compute in
    match Resultset.new example_stmt with
    | Ok rs => rs
    | Throw _ => Resultset.mk example_stmt false 0 []
    end.

(** The cursor over the empty table. *)
Definition exhausted_cursor : Resultset.t :=
  Eval vm_compute in
    match Resultset.new empty_stmt with
    | Ok rs => rs
    | Throw _ => Resultset.mk empty_stmt false 0 []
    end.

(** The example query while another connection holds a lock: the second
    step fails with code 5, the step after it yields a row. *)
Definition locked_stmt : sqlite3_stmt :=
  mk_stmt ["id"; "name"]%string [BoundNull; BoundNull] false None
          [OutRow [int_cell 7; text_cell "ann"];
           OutError 5;
           OutRow [int_cell 8; text_cell "bob"];
           OutDone]
          0 [] example_library.

Definition locked_cursor : Resultset.t :=
  Eval vm_compute in
    match Resultset.new locked_stmt with
    | Ok rs => rs
    | Throw _ => Resultset.mk locked_stmt false 0 []
    end.

(** What the next [sqlite3_exec] will do; a finished script answers with
    success and no rows. *)
Definition next_exec (db : sqlite3) : ExecOutcome :=
  match db_script db with
  | [] => mk_exec [] SQLITE_OK None
  | o :: _ => o
  end.


(** The rows of one [sqlite3_exec], as named text fields. *)
Definition table_of (rows : list (list (string * option string))) : SqlTable :=
  map (map (fun f => (fst f, fixNullStr (snd f)))) rows.

(** A connection holding rows of an earlier query; the engine will answer
    the next query with one row and then fail on a constraint. *)
Definition example_connection : Connection.t :=
  Connection.mk
    (mk_db [mk_exec [[("changes", Some "2")]]%string 19
                    (Some "UNIQUE constraint failed: Test.text_col_key"%string);
            mk_exec [[("int_col", None)]]%string 0 None])
    EmptyString
    [[("old", "row")]]%string.

(** No column object of the cursor carries [name]. *)
Definition posn_from_none (name : SqlColName) (rs : Resultset.t) : Prop :=
  Resultset.posn_from (Resultset.stmnt rs) (Resultset.columns rs) name 0 = None.



(** A parameter the layer hands to the engine as it is: a file parameter
    must open as a regular file, and what is bound as a blob must fit an
    [int] length. *)
Definition bindable (fs : filesystem) (v : Param) : Prop :=
  match v with
  | ParamString s => Z.of_nat (String.length s) <= INT_MAX
  | ParamPath p =>
      match fs p with
      | stream_failed => False
      | stream_unsized _ => False
      | stream_open content read_ok =>
          read_ok = true -> Z.of_nat (String.length content) <= INT_MAX
      end
  | _ => True
  end.

(** A parameter whose bytes the engine's length limit lets through. *)
Definition within_limit (limit : Z) (fs : filesystem) (v : Param) : Prop :=
  match v with
  | ParamCStr s => Z.of_nat (strlen s) <= limit
  | ParamString s => Z.of_nat (String.length s) <= limit
  | ParamPath p =>
      match fs p with
      | stream_open content true => Z.of_nat (String.length content) <= limit
      | _ => True
      end
  | _ => True
  end.


(** The native call [bind] issues for a parameter at position [pos]; none
    when it binds nothing. *)
Definition call_of (fs : filesystem) (pos : Z) (v : Param) : list NativeCall :=
  match v with
  | ParamInt n => [call_bind_int pos n]
  | ParamDouble d => [call_bind_double pos d]
  | ParamCStr s => [call_bind_text pos s (-1)]
  | ParamString s =>
      if Nat.eqb (strlen s) (String.length s) then [call_bind_text pos s (-1)]
      else [call_bind_blob pos s (static_cast_int (Z.of_nat (String.length s)))]
  | ParamPath p =>
      match fs p with
      | stream_open content true =>
          [call_bind_blob pos content
                          (static_cast_int (Z.of_nat (String.length content)))]
      | _ => []
      end
  | ParamNullptr => [call_bind_null pos]
  | ParamOther => []
  end.

Fixpoint calls_from (fs : filesystem) (pos : Z) (values : list Param)
    : list NativeCall :=
  match values with
  | [] => []
  | v :: rest => call_of fs pos v ++ calls_from fs (pos + 1) rest
  end.

(** What the engine's readers return for a cell, by requested type; none
    for NULL and for a type the reader does not know. *)
Definition typed_value (T : ReadType) (c : Cell) : option ReadValue :=
  match c with
  | CellNull => None
  | CellData _ a b d bytes =>
      match T with
      | T_int => Some (V_int a)
      | T_long_long => Some (V_long_long b)
      | T_double => Some (V_double d)
      | T_string => Some (V_string bytes)
      | T_other => None
      end
  end.

Definition supported (T : ReadType) : Prop := T <> T_other.

(** A row of cells under its column names. *)
Definition render (names : list string) (cells : list Cell) : SqlRow :=
  zip_with (fun n c => (n, cell_bytes c)) names cells.

(** A caller that takes rows with [row()] until it returns "no value", at
    most [fuel] times. *)
Fixpoint fetch_all (fuel : nat) (rs : Resultset.t)
    : outcome (list SqlRow) * Resultset.t :=
  match fuel with
  | O => (Ok [], rs)
  | S n =>
      match Resultset.row rs with
      | (Throw e, rs') => (Throw e, rs')
      | (Ok None, rs') => (Ok [], rs')
      | (Ok (Some r), rs') =>
          match fetch_all n rs' with
          | (Throw e, rs'') => (Throw e, rs'')
          | (Ok l, rs'') => (Ok (r :: l), rs'')
          end
      end
  end.

(** A disk holding one file, on which every path but one can be opened for
    writing. *)
Definition example_disk : disk :=
  mk_disk {[ "/out/old.bin"%string := "previous"%string ]}
          (fun p => negb (String.eqb p "/readonly/x.bin")).

(** A statement whose last step failed with code 19. *)
Definition failed_stmt : sqlite3_stmt :=
  mk_stmt ["id"; "name"]%string [BoundInt 1; BoundNull] true None
          [OutRow [int_cell 7; text_cell "ann"]; OutDone] 19 [call_step]
          example_library.


(** The operations a caller makes on a cursor, catching what they throw. *)
Inductive CursorOp : Type :=
| op_row
| op_rowS
| op_rowT (Ts : list ReadType) (order : list nat)
| op_seq (c : SeqCall).

Definition run_op (rs : Resultset.t) (op : CursorOp) : Resultset.t :=
  match op with
  | op_row => snd (Resultset.row rs)
  | op_rowS => snd (Resultset.rowS rs)
  | op_rowT Ts order => snd (Resultset.rowT Ts order rs)
  | op_seq c => run_seq_call rs c
  end.

Definition no_error (o : StepOutcome) : Prop :=
  match o with
  | OutError _ => False
  | _ => True
  end.

(** ** Tactics *)

Ltac unfold_monad :=
  unfold bindM, ret, throw, const_call in *.

Ltac unfold_binder :=
  unfold Binder.setParams, Binder.checkBindParamCount, Binder.reset,
    Binder.bindInt, Binder.bindDouble, Binder.bindText, Binder.bindBlob,
    Binder.checkResult, Binder.native in *;
  unfold_monad.

(** ** Facts about strings *)

Lemma take_bytes_all (s : string) : take_bytes (String.length s) s = s.
Proof.
  induction s as [| c rest IH]; simpl; [reflexivity | now rewrite IH].
Qed.

Lemma strlen_le (s : string) : (strlen s <= String.length s)%nat.
Proof.
  induction s as [| c rest IH]; simpl; [lia |].
  destruct (Ascii.eqb c zero); lia.
Qed.


Lemma c_str_no_zero (s : string) : has_zero_byte s = false -> c_str s = s.
Proof.
  induction s as [| c rest IH]; simpl; [reflexivity |].
  destruct (Ascii.eqb c zero); simpl; [discriminate |].
  intro H. now rewrite IH.
Qed.

Lemma static_cast_int_small (n : Z) :
  0 <= n <= INT_MAX -> static_cast_int n = n.
Proof.
  unfold static_cast_int, INT_MAX. intros H.
  rewrite Z.mod_small; lia.
Qed.

(** ** Facts about the engine's bind *)

Lemma engine_bind_frame call pos v st :
  let st' := snd (engine_bind call pos v st) in
  st_log st' = st_log st ++ [call]
  /\ st_busy st' = st_busy st
  /\ length (st_slots st') = length (st_slots st)
  /\ (forall i : nat, i <> Z.to_nat (pos - 1) -> st_slots st' !! i = st_slots st !! i).
Proof.
  unfold engine_bind, logged.
  destruct (st_busy st) eqn:Hb; simpl; [repeat split; auto |].
  destruct ((pos <? 1) || (Z.of_nat (length (st_slots st)) <? pos)); simpl;
    [repeat split; auto |].
  destruct (too_big (lib_limit_length (st_library st)) v); simpl;
    repeat split; auto; try apply length_insert;
    intros i Hi; apply list_lookup_insert_ne; congruence.
Qed.

Lemma engine_bind_library call pos v st :
  st_library (snd (engine_bind call pos v st)) = st_library st.
Proof.
  unfold engine_bind. destruct (st_busy st); [reflexivity |].
  destruct ((pos <? 1) || (Z.of_nat (length (st_slots st)) <? pos)); [reflexivity |].
  destruct (too_big (lib_limit_length (st_library st)) v); reflexivity.
Qed.

(** The engine takes a value within the length limit, at a position in
    range, on a statement that is not busy. *)
Lemma engine_bind_in_range call pos v st :
  st_busy st = false ->
  1 <= pos <= Z.of_nat (length (st_slots st)) ->
  too_big (lib_limit_length (st_library st)) v = false ->
  fst (engine_bind call pos v st) = SQLITE_OK
  /\ st_slots (snd (engine_bind call pos v st)) !! Z.to_nat (pos - 1) = Some v.
Proof.
  intros Hb Hpos Hbig. unfold engine_bind. rewrite Hb, Hbig.
  replace (pos <? 1) with false by (symmetry; apply Z.ltb_ge; lia).
  replace (Z.of_nat (length (st_slots st)) <? pos) with false
    by (symmetry; apply Z.ltb_ge; lia).
  simpl. split; [reflexivity |].
  apply list_lookup_insert_eq. lia.
Qed.



Lemma sqlite3_bind_blob_frame pos buffer n st :
  let st' := snd (sqlite3_bind_blob pos buffer n st) in
  st_log st' = st_log st ++ [call_bind_blob pos buffer n]
  /\ st_busy st' = st_busy st
  /\ length (st_slots st') = length (st_slots st)
  /\ (forall i : nat, i <> Z.to_nat (pos - 1) -> st_slots st' !! i = st_slots st !! i).
Proof.
  unfold sqlite3_bind_blob. destruct (n <? 0).
  - simpl. repeat split; auto.
  - apply engine_bind_frame.
Qed.

Lemma sqlite3_bind_blob_library pos buffer n st :
  st_library (snd (sqlite3_bind_blob pos buffer n st)) = st_library st.
Proof.
  unfold sqlite3_bind_blob. destruct (n <? 0); [reflexivity |].
  apply engine_bind_library.
Qed.

(** ** Facts about the Binder *)

Lemma binds_in_refl p q b : binds_in p q b b.
Proof.
  unfold binds_in. repeat split; auto. exists []. now rewrite app_nil_r.
Qed.

Lemma binds_in_trans p q r b1 b2 b3 :
  p <= q <= r -> binds_in p q b1 b2 -> binds_in q r b2 b3 -> binds_in p r b1 b3.
Proof.
  intros Hpq (Hl1 & Hb1 & Hn1 & Hs1) (Hl2 & Hb2 & Hn2 & Hs2).
  destruct Hl1 as [l1 Hl1]. destruct Hl2 as [l2 Hl2].
  unfold binds_in. repeat split.
  - exists (l1 ++ l2). rewrite Hl2, Hl1. now rewrite app_assoc.
  - congruence.
  - congruence.
  - intros i Hi. rewrite Hs2 by lia. apply Hs1. lia.
Qed.

(** A native bind at the counter's position, followed by [checkResult]. *)
Lemma native_bind_frame (f : sqlite3_stmt -> Z * sqlite3_stmt) call pos st0 :
  0 <= pos - 1 ->
  (forall st,
      st_log (snd (f st)) = st_log st ++ [call]
      /\ st_busy (snd (f st)) = st_busy st
      /\ length (st_slots (snd (f st))) = length (st_slots st)
      /\ (forall i : nat, i <> Z.to_nat (pos - 1) ->
            st_slots (snd (f st)) !! i = st_slots st !! i)) ->
  forall r b',
    (res <- Binder.native f ;; Binder.checkResult res) (Binder.mk pos st0) = (r, b') ->
    Binder.bindPosn b' = pos
    /\ binds_in (pos - 1) pos (Binder.mk pos st0) b'
    /\ Binder.stmnt b' = snd (f st0)
    /\ r = (if fst (f st0) =? 0 then Ok tt
            else Throw (runtime_error ("bind fail at posn " +:+ to_string pos))).
Proof.
  intros Hpos Hf r b'. unfold_binder. simpl.
  specialize (Hf st0). destruct (f st0) as [rc st'] eqn:E. simpl in *.
  destruct Hf as (Hl & Hb & Hn & Hs).
  destruct (rc =? 0); simpl; intros H; inversion H; subst; clear H; simpl;
    (split; [reflexivity |]); (split; [| split; reflexivity]);
    unfold binds_in; simpl; repeat split; eauto;
    intros i Hi; apply Hs; lia.
Qed.

Lemma bind_frame fs v b r b' :
  0 <= Binder.bindPosn b ->
  Binder.bind fs v b = (r, b') ->
  Binder.bindPosn b' = Binder.bindPosn b + 1
  /\ binds_in (Binder.bindPosn b) (Binder.bindPosn b + 1) b b'.
Proof.
  intros Hp. unfold Binder.bind. unfold bindM at 1. simpl.
  set (b1 := Binder.mk (Binder.bindPosn b + 1) (Binder.stmnt b)).
  assert (Hb1 : binds_in (Binder.bindPosn b) (Binder.bindPosn b + 1) b b1).
  { unfold binds_in; simpl. repeat split; auto. exists []. now rewrite app_nil_r. }
  assert (Hnative :
    forall f call,
      (forall st,
          st_log (snd (f st)) = st_log st ++ [call]
          /\ st_busy (snd (f st)) = st_busy st
          /\ length (st_slots (snd (f st))) = length (st_slots st)
          /\ (forall i : nat, i <> Z.to_nat (Binder.bindPosn b + 1 - 1) ->
                st_slots (snd (f st)) !! i = st_slots st !! i)) ->
      (res <- Binder.native f ;; Binder.checkResult res) b1 = (r, b') ->
      Binder.bindPosn b' = Binder.bindPosn b + 1
      /\ binds_in (Binder.bindPosn b) (Binder.bindPosn b + 1) b b').
  { intros f call Hf H.
    destruct (native_bind_frame f call (Binder.bindPosn b + 1) (Binder.stmnt b)
                ltac:(lia) Hf r b' H) as (H1 & H2 & _).
    split; [exact H1 |].
    replace (Binder.bindPosn b + 1 - 1) with (Binder.bindPosn b) in H2 by lia.
    exact H2. }
  destruct v; simpl.
  - apply Hnative with (call := call_bind_int (Binder.bindPosn b + 1) v).
    intro st. apply engine_bind_frame.
  - apply Hnative with (call := call_bind_double (Binder.bindPosn b + 1) d).
    intro st. apply engine_bind_frame.
  - apply Hnative with (call := call_bind_text (Binder.bindPosn b + 1) s (-1)).
    intro st. apply engine_bind_frame.
  - destruct (Nat.eqb (strlen s) (String.length s)).
    + apply Hnative with (call := call_bind_text (Binder.bindPosn b + 1) s (-1)).
      intro st. apply engine_bind_frame.
    + apply Hnative
        with (call := call_bind_blob (Binder.bindPosn b + 1) s
                        (static_cast_int (Z.of_nat (String.length s)))).
      intro st. apply sqlite3_bind_blob_frame.
  - destruct (fs p) as [| content read_ok | f].
    + unfold throw. intros H; inversion H; subst. split; [reflexivity | exact Hb1].
    + destruct read_ok; simpl.
      * apply Hnative
          with (call := call_bind_blob (Binder.bindPosn b + 1) content
                          (static_cast_int (Z.of_nat (String.length content)))).
        intro st. apply sqlite3_bind_blob_frame.
      * unfold ret. intros H; inversion H; subst. split; [reflexivity | exact Hb1].
    + unfold throw. intros H; inversion H; subst. split; [reflexivity | exact Hb1].
  - apply Hnative with (call := call_bind_null (Binder.bindPosn b + 1)).
    intro st. apply engine_bind_frame.
  - unfold ret. intros H; inversion H; subst. split; [reflexivity | exact Hb1].
Qed.

Lemma doBinds_frame fs values :
  forall b r b',
    0 <= Binder.bindPosn b ->
    Binder.doBinds fs values b = (r, b') ->
    binds_in (Binder.bindPosn b) (Binder.bindPosn b + Z.of_nat (length values)) b b'
    /\ (r = Ok tt -> Binder.bindPosn b' = Binder.bindPosn b + Z.of_nat (length values)).
Proof.
  induction values as [| v rest IH]; intros b r b' Hp H; simpl in H.
  - unfold ret in H. inversion H; subst. split; [apply binds_in_refl |].
    intros _. simpl. lia.
  - unfold bindM in H. destruct (Binder.bind fs v b) as [r1 b1] eqn:E1.
    destruct (bind_frame fs v b r1 b1 Hp E1) as [Hpos Hfr].
    assert (Hlen : Z.of_nat (length (v :: rest)) = 1 + Z.of_nat (length rest))
      by (simpl length; lia).
    destruct r1 as [[] | e].
    + destruct (IH b1 r b' ltac:(lia) H) as [Hfr2 Hlen2].
      rewrite Hpos in Hfr2. split.
      * eapply binds_in_trans; [| exact Hfr |].
        2: { rewrite Hlen.
             replace (Binder.bindPosn b + (1 + Z.of_nat (length rest)))
               with (Binder.bindPosn b + 1 + Z.of_nat (length rest)) by lia.
             exact Hfr2. }
        lia.
      * intros Hr. rewrite (Hlen2 Hr), Hpos. lia.
    + inversion H; subst. split; [| discriminate].
      destruct Hfr as (Hl & Hb & Hn & Hs).
      unfold binds_in. repeat split; auto.
      intros i Hi. apply Hs. lia.
Qed.


(** A successful [setParams] passed the arity check, reset the statement
    without error, and ran the binds from position counter zero. *)
Lemma setParams_ok_inv fs values b b' :
  Binder.setParams fs values b = (Ok tt, b') ->
  Z.of_nat (length values) = sqlite3_bind_parameter_count (Binder.stmnt b)
  /\ st_reset_rc (Binder.stmnt b) = 0
  /\ Binder.doBinds fs values (Binder.mk 0 (snd (sqlite3_reset (Binder.stmnt b))))
     = (Ok tt, b').
Proof.
  unfold_binder. simpl.
  destruct (Z.of_nat (length values) =? sqlite3_bind_parameter_count (Binder.stmnt b))
    eqn:Hcount; simpl; [| discriminate].
  destruct (st_reset_rc (Binder.stmnt b) =? 0) eqn:Hrc; simpl; [| discriminate].
  intros H. apply Z.eqb_eq in Hcount. apply Z.eqb_eq in Hrc. auto.
Qed.


(** ** C1: the arity check of [setParams] *)

Lemma setParams_mismatch fs values b :
  Z.of_nat (length values) <> sqlite3_bind_parameter_count (Binder.stmnt b) ->
  Binder.setParams fs values b
  = (Throw (runtime_error
              (if Z.of_nat (length values)
                  >? sqlite3_bind_parameter_count (Binder.stmnt b)
               then "too many bind params" else "too few bind params")), b).
Proof.
  intros Hne. unfold_binder. simpl.
  apply Z.eqb_neq in Hne. rewrite Hne. reflexivity.
Qed.

(** C1. Binding [k] values against a statement with [m] placeholders, with
    [k] different from [m], fails with a [BindArityError] whose message says
    "too many" when [k > m] and "too few" when [k < m]; the binder and the
    statement are left exactly as they were, so no slot is modified and no
    native call (bind or reset) was issued. *)
Theorem setParams_arity_mismatch (fs : filesystem) (values : list Param)
    (b : Binder.t) :
  Z.of_nat (length values) <> sqlite3_bind_parameter_count (Binder.stmnt b) ->
  exists e,
    Binder.setParams fs values b = (Throw e, b)
    /\ BindArityError e
    /\ (Z.of_nat (length values) > sqlite3_bind_parameter_count (Binder.stmnt b) ->
        e = runtime_error "too many bind params")
    /\ (Z.of_nat (length values) < sqlite3_bind_parameter_count (Binder.stmnt b) ->
        e = runtime_error "too few bind params")
    /\ st_slots (Binder.stmnt (snd (Binder.setParams fs values b)))
       = st_slots (Binder.stmnt b)
    /\ st_log (Binder.stmnt (snd (Binder.setParams fs values b)))
       = st_log (Binder.stmnt b).
Proof.
  intros Hne. rewrite (setParams_mismatch fs values b Hne). simpl.
  destruct (Z.of_nat (length values) >? sqlite3_bind_parameter_count (Binder.stmnt b))
    eqn:Hgt.
  - exists (runtime_error "too many bind params").
    unfold BindArityError. repeat split; auto.
    intros Hlt. apply Z.gtb_lt in Hgt. lia.
  - exists (runtime_error "too few bind params").
    unfold BindArityError. repeat split; auto.
    intros Hgt'. rewrite Z.gtb_ltb in Hgt. apply Z.ltb_ge in Hgt. lia.
Qed.

Lemma setParams_arity_mismatch_witness :
  exists e,
    Binder.setParams example_fs [ParamInt 3; ParamInt 5; ParamInt 7]
                     (Binder.mk 0 example_stmt)
    = (Throw e, Binder.mk 0 example_stmt)
    /\ BindArityError e.
Proof.
  destruct (setParams_arity_mismatch example_fs [ParamInt 3; ParamInt 5; ParamInt 7]
              (Binder.mk 0 example_stmt)) as (e & H1 & H2 & _).
  - unfold sqlite3_bind_parameter_count. simpl. lia.
  - exists e. split; [exact H1 | exact H2].
Defined.

(** ** C6: [std::string] parameters *)

Lemma native_bind_result (f : sqlite3_stmt -> Z * sqlite3_stmt) pos st0 :
  (res <- Binder.native f ;; Binder.checkResult res) (Binder.mk pos st0)
  = (if fst (f st0) =? 0 then Ok tt
     else Throw (runtime_error ("bind fail at posn " +:+ to_string pos)),
     Binder.mk pos (snd (f st0))).
Proof.
  unfold_binder. simpl. destruct (f st0) as [rc st']; simpl.
  destruct (rc =? 0); reflexivity.
Qed.

Lemma bindText_result s pos st0 :
  Binder.bindText s (Binder.mk pos st0)
  = (if fst (sqlite3_bind_text pos s (-1) st0) =? 0 then Ok tt
     else Throw (runtime_error ("bind fail at posn " +:+ to_string pos)),
     Binder.mk pos (snd (sqlite3_bind_text pos s (-1) st0))).
Proof. unfold Binder.bindText. simpl. apply native_bind_result. Qed.

Lemma bindBlob_result s pos st0 :
  Binder.bindBlob s (Binder.mk pos st0)
  = (let n := static_cast_int (Z.of_nat (String.length s)) in
     (if fst (sqlite3_bind_blob pos s n st0) =? 0 then Ok tt
      else Throw (runtime_error ("bind fail at posn " +:+ to_string pos)),
      Binder.mk pos (snd (sqlite3_bind_blob pos s n st0)))).
Proof. unfold Binder.bindBlob. simpl. apply native_bind_result. Qed.

Lemma bind_ParamString fs s b :
  Binder.bind fs (ParamString s) b
  = (if Nat.eqb (strlen s) (String.length s) then Binder.bindText s
     else Binder.bindBlob s) (Binder.mk (Binder.bindPosn b + 1) (Binder.stmnt b)).
Proof. reflexivity. Qed.


(** A blob bind of a whole buffer, within the length limit and in range, on
    a statement that is not busy, stores the buffer byte for byte. *)
Lemma sqlite3_bind_blob_whole pos s st :
  Z.of_nat (String.length s) <= INT_MAX ->
  Z.of_nat (String.length s) <= lib_limit_length (st_library st) ->
  st_busy st = false ->
  1 <= pos <= Z.of_nat (length (st_slots st)) ->
  let n := static_cast_int (Z.of_nat (String.length s)) in
  n = Z.of_nat (String.length s)
  /\ fst (sqlite3_bind_blob pos s n st) = SQLITE_OK
  /\ st_slots (snd (sqlite3_bind_blob pos s n st)) !! Z.to_nat (pos - 1)
     = Some (BoundBlob s).
Proof.
  intros Hsize Hlimit Hbusy Hpos. simpl.
  rewrite static_cast_int_small by lia.
  split; [reflexivity |].
  unfold sqlite3_bind_blob.
  replace (Z.of_nat (String.length s) <? 0) with false
    by (symmetry; apply Z.ltb_ge; lia).
  rewrite Nat2Z.id, take_bytes_all.
  apply engine_bind_in_range; auto.
  simpl. apply Z.ltb_ge. exact Hlimit.
Qed.


Lemma sqlite3_bind_text_terminated pos s st :
  has_zero_byte s = false ->
  Z.of_nat (String.length s) <= lib_limit_length (st_library st) ->
  st_busy st = false ->
  1 <= pos <= Z.of_nat (length (st_slots st)) ->
  fst (sqlite3_bind_text pos s (-1) st) = SQLITE_OK
  /\ st_slots (snd (sqlite3_bind_text pos s (-1) st)) !! Z.to_nat (pos - 1)
     = Some (BoundText s).
Proof.
  intros Hz Hlimit Hbusy Hpos. unfold sqlite3_bind_text. simpl.
  rewrite (c_str_no_zero s Hz). apply engine_bind_in_range; auto.
  simpl. apply Z.ltb_ge. exact Hlimit.
Qed.




Lemma bind_ParamPath fs p b :
  Binder.bind fs (ParamPath p) b
  = match fs p with
    | stream_failed =>
        (Throw (runtime_error ("Invalid filePath: " +:+ p)),
         Binder.mk (Binder.bindPosn b + 1) (Binder.stmnt b))
    | stream_unsized f =>
        (Throw (buffer_exception f),
         Binder.mk (Binder.bindPosn b + 1) (Binder.stmnt b))
    | stream_open content read_ok =>
        if read_ok then
          Binder.bindBlob content (Binder.mk (Binder.bindPosn b + 1) (Binder.stmnt b))
        else (Ok tt, Binder.mk (Binder.bindPosn b + 1) (Binder.stmnt b))
    end.
Proof.
  unfold Binder.bind, bindM. simpl.
  destruct (fs p) as [| content [|] | f]; reflexivity.
Qed.

(** *** The length the blob bind is given *)







(** *** The engine refuses a value over its length limit *)



(** *** [setParams] returns *)

Lemma c_str_length (s : string) : String.length (c_str s) = strlen s.
Proof.
  induction s as [| c rest IH]; simpl; [reflexivity |].
  destruct (Ascii.eqb c zero); simpl; [reflexivity | now rewrite IH].
Qed.

Lemma bind_succeeds fs v b :
  bindable fs v ->
  within_limit (lib_limit_length (st_library (Binder.stmnt b))) fs v ->
  st_busy (Binder.stmnt b) = false ->
  0 <= Binder.bindPosn b ->
  Binder.bindPosn b + 1 <= Z.of_nat (length (st_slots (Binder.stmnt b))) ->
  exists b', Binder.bind fs v b = (Ok tt, b').
Proof.
  intros Hv Hlim Hbusy Hp Hrange.
  assert (Hpos : 1 <= Binder.bindPosn b + 1
                 <= Z.of_nat (length (st_slots (Binder.stmnt b)))) by lia.
  assert (Hengine : forall call bound,
            too_big (lib_limit_length (st_library (Binder.stmnt b))) bound = false ->
            (fst (engine_bind call (Binder.bindPosn b + 1) bound (Binder.stmnt b)) =? 0)
            = true).
  { intros call bound Hbig.
    destruct (engine_bind_in_range call (Binder.bindPosn b + 1) bound
                (Binder.stmnt b) Hbusy Hpos Hbig) as [Hrc _].
    rewrite Hrc. reflexivity. }
  assert (Hblob : forall s,
            Z.of_nat (String.length s) <= INT_MAX ->
            Z.of_nat (String.length s)
            <= lib_limit_length (st_library (Binder.stmnt b)) ->
            exists b',
              Binder.bindBlob s (Binder.mk (Binder.bindPosn b + 1) (Binder.stmnt b))
              = (Ok tt, b')).
  { intros s Hsize Hlimit. rewrite bindBlob_result. cbv zeta.
    destruct (sqlite3_bind_blob_whole (Binder.bindPosn b + 1) s (Binder.stmnt b)
                Hsize Hlimit Hbusy Hpos) as (_ & Hrc & _).
    rewrite Hrc. simpl. eauto. }
  assert (Htext : forall s,
            Z.of_nat (strlen s) <= lib_limit_length (st_library (Binder.stmnt b)) ->
            exists b',
              Binder.bindText s (Binder.mk (Binder.bindPosn b + 1) (Binder.stmnt b))
              = (Ok tt, b')).
  { intros s Hlimit. rewrite bindText_result. unfold sqlite3_bind_text.
    rewrite Hengine; [eauto |].
    simpl. rewrite c_str_length. apply Z.ltb_ge. exact Hlimit. }
  destruct v; simpl in Hv, Hlim.
  - change (Binder.bind fs (ParamInt v) b)
      with (Binder.bindInt v (Binder.mk (Binder.bindPosn b + 1) (Binder.stmnt b))).
    unfold Binder.bindInt. cbn [Binder.bindPosn Binder.stmnt].
    rewrite native_bind_result. unfold sqlite3_bind_int.
    rewrite Hengine by reflexivity. eauto.
  - change (Binder.bind fs (ParamDouble d) b)
      with (Binder.bindDouble d (Binder.mk (Binder.bindPosn b + 1) (Binder.stmnt b))).
    unfold Binder.bindDouble. cbn [Binder.bindPosn Binder.stmnt].
    rewrite native_bind_result. unfold sqlite3_bind_double.
    rewrite Hengine by reflexivity. eauto.
  - change (Binder.bind fs (ParamCStr s) b)
      with (Binder.bindText s (Binder.mk (Binder.bindPosn b + 1) (Binder.stmnt b))).
    now apply Htext.
  - rewrite bind_ParamString.
    destruct (Nat.eqb (strlen s) (String.length s)) eqn:Hlen;
      [| now apply Hblob].
    apply Htext. apply Nat.eqb_eq in Hlen. rewrite Hlen. exact Hlim.
  - rewrite bind_ParamPath.
    destruct (fs p) as [| content [|] | f]; [contradiction | | | contradiction].
    + apply Hblob; [now apply Hv | exact Hlim].
    + eauto.
  - change (Binder.bind fs ParamNullptr b)
      with ((res <- Binder.native (sqlite3_bind_null (Binder.bindPosn b + 1)) ;;
             Binder.checkResult res)
              (Binder.mk (Binder.bindPosn b + 1) (Binder.stmnt b))).
    rewrite native_bind_result. unfold sqlite3_bind_null.
    rewrite Hengine by reflexivity. eauto.
  - unfold Binder.bind, bindM, ret. simpl. eauto.
Qed.

(** One bind leaves the statement with the engine it belongs to. *)
Lemma bind_library fs v b :
  st_library (Binder.stmnt (snd (Binder.bind fs v b))) = st_library (Binder.stmnt b).
Proof.
  set (b1 := Binder.mk (Binder.bindPosn b + 1) (Binder.stmnt b)).
  assert (Hblob : forall s,
            st_library (Binder.stmnt (snd (Binder.bindBlob s b1)))
            = st_library (Binder.stmnt b)).
  { intros s. unfold b1. rewrite bindBlob_result. simpl.
    apply sqlite3_bind_blob_library. }
  assert (Htext : forall s,
            st_library (Binder.stmnt (snd (Binder.bindText s b1)))
            = st_library (Binder.stmnt b)).
  { intros s. unfold b1. rewrite bindText_result. simpl.
    apply engine_bind_library. }
  destruct v.
  - change (Binder.bind fs (ParamInt v) b) with (Binder.bindInt v b1).
    unfold Binder.bindInt, b1. cbn [Binder.bindPosn Binder.stmnt].
    rewrite native_bind_result. simpl. apply engine_bind_library.
  - change (Binder.bind fs (ParamDouble d) b) with (Binder.bindDouble d b1).
    unfold Binder.bindDouble, b1. cbn [Binder.bindPosn Binder.stmnt].
    rewrite native_bind_result. simpl. apply engine_bind_library.
  - change (Binder.bind fs (ParamCStr s) b) with (Binder.bindText s b1).
    apply Htext.
  - rewrite bind_ParamString. fold b1.
    destruct (Nat.eqb (strlen s) (String.length s)); [apply Htext | apply Hblob].
  - rewrite bind_ParamPath. fold b1.
    destruct (fs p) as [| content [|] | f]; try reflexivity. apply Hblob.
  - change (Binder.bind fs ParamNullptr b)
      with ((res <- Binder.native (sqlite3_bind_null (Binder.bindPosn b + 1)) ;;
             Binder.checkResult res) b1).
    unfold b1. rewrite native_bind_result. simpl. apply engine_bind_library.
  - reflexivity.
Qed.

Lemma doBinds_succeeds fs values :
  forall b,
    Forall (bindable fs) values ->
    Forall (within_limit (lib_limit_length (st_library (Binder.stmnt b))) fs) values ->
    st_busy (Binder.stmnt b) = false ->
    0 <= Binder.bindPosn b ->
    Binder.bindPosn b + Z.of_nat (length values)
    <= Z.of_nat (length (st_slots (Binder.stmnt b))) ->
    exists b', Binder.doBinds fs values b = (Ok tt, b').
Proof.
  induction values as [| v rest IH]; intros b Hall Hlim Hbusy Hp Hrange; simpl.
  - unfold ret. eauto.
  - inversion Hall as [| v' rest' Hv Hrest]; subst.
    inversion Hlim as [| v' rest' Hlv Hlrest]; subst.
    simpl length in Hrange.
    destruct (bind_succeeds fs v b Hv Hlv Hbusy Hp ltac:(lia)) as [b1 Hb1].
    destruct (bind_frame fs v b (Ok tt) b1 Hp Hb1) as (Hp1 & _ & Hbusy1 & Hlen1 & _).
    pose proof (bind_library fs v b) as Hlib. rewrite Hb1 in Hlib. simpl in Hlib.
    unfold bindM. rewrite Hb1.
    apply IH; auto.
    + now rewrite Hlib.
    + now rewrite Hbusy1.
    + lia.
    + rewrite Hlen1. lia.
Qed.

(** With the right number of values, each handed to the engine as it is and
    within its length limit, on a statement whose last step did not fail,
    [setParams] returns. *)
Lemma setParams_succeeds fs values b :
  Z.of_nat (length values) = sqlite3_bind_parameter_count (Binder.stmnt b) ->
  st_reset_rc (Binder.stmnt b) = 0 ->
  Forall (bindable fs) values ->
  Forall (within_limit (lib_limit_length (st_library (Binder.stmnt b))) fs) values ->
  exists b', Binder.setParams fs values b = (Ok tt, b').
Proof.
  intros Hcount Hrc Hall Hlim. unfold_binder. simpl.
  rewrite Hcount, Z.eqb_refl, Hrc. simpl.
  apply (doBinds_succeeds fs values
           (Binder.mk 0 (snd (sqlite3_reset (Binder.stmnt b))))); auto; simpl;
    unfold sqlite3_bind_parameter_count in Hcount; lia.
Qed.





(** ** C8: file-path parameters *)




(** ** Facts about the cursor *)

Lemma readText_cell st c :
  ResultColumn.readText st c = cell_bytes (column_cell st (ResultColumn.posn c)).
Proof.
  unfold ResultColumn.readText, sqlite3_column_text, sqlite3_column_bytes,
    string_of_buffer.
  destruct (column_cell st (ResultColumn.posn c)); simpl; [reflexivity |].
  rewrite Nat2Z.id. apply take_bytes_all.
Qed.

Lemma column_cell_nth st (i : nat) :
  column_cell st (Z.of_nat i) = nth i (current_cells st) CellNull.
Proof.
  unfold column_cell, current_cells. destruct (st_row st) as [cells |].
  - replace (Z.of_nat i <? 0) with false by (symmetry; apply Z.ltb_ge; lia).
    now rewrite Nat2Z.id.
  - now destruct i.
Qed.

Lemma column_name_nth st (i : nat) :
  sqlite3_column_name st (Z.of_nat i) = nth i (st_names st) EmptyString.
Proof.
  unfold sqlite3_column_name.
  replace (Z.of_nat i <? 0) with false by (symmetry; apply Z.ltb_ge; lia).
  now rewrite Nat2Z.id.
Qed.

Lemma at_in_range {A : Type} (v : list A) (i : nat) (x : A) :
  v !! i = Some x -> at_ v (Z.of_nat i) = Ok x.
Proof.
  intros H. unfold at_.
  replace (Z.of_nat i <? 0) with false by (symmetry; apply Z.ltb_ge; lia).
  now rewrite Nat2Z.id, H.
Qed.

Lemma at_out_of_range {A : Type} (v : list A) (i : Z) :
  i < 0 \/ Z.of_nat (length v) <= i -> at_ v i = Throw out_of_range.
Proof.
  intros H. unfold at_. destruct (i <? 0) eqn:Hneg; [reflexivity |].
  apply Z.ltb_ge in Hneg.
  rewrite (lookup_ge_None_2 v (Z.to_nat i)) by lia. reflexivity.
Qed.

(** With a row available, the positional peek at a column in range yields
    that column's name and the bytes of its cell. *)
Lemma field_in_range rs (i : nat) :
  cursor_ok rs -> Resultset.hasRow rs = true ->
  (i < length (Resultset.columns rs))%nat ->
  Resultset.field (Z.of_nat i) rs
  = Ok (nth i (st_names (Resultset.stmnt rs)) EmptyString,
        cell_bytes (nth i (current_cells (Resultset.stmnt rs)) CellNull)).
Proof.
  intros (_ & _ & Hposn & _) Hrow Hi. unfold Resultset.field. rewrite Hrow. simpl.
  destruct (lookup_lt_is_Some_2 (Resultset.columns rs) i Hi) as [c Hc].
  rewrite (at_in_range _ _ _ Hc).
  unfold ResultColumn.field, ResultColumn.fieldS, ResultColumn.name.
  rewrite readText_cell, (Hposn i c Hc), column_cell_nth, column_name_nth.
  reflexivity.
Qed.

Lemma fieldS_in_range rs (i : nat) :
  cursor_ok rs -> Resultset.hasRow rs = true ->
  (i < length (Resultset.columns rs))%nat ->
  Resultset.fieldS (Z.of_nat i) rs
  = Ok (cell_bytes (nth i (current_cells (Resultset.stmnt rs)) CellNull)).
Proof.
  intros (_ & _ & Hposn & _) Hrow Hi. unfold Resultset.fieldS. rewrite Hrow. simpl.
  destruct (lookup_lt_is_Some_2 (Resultset.columns rs) i Hi) as [c Hc].
  rewrite (at_in_range _ _ _ Hc).
  unfold ResultColumn.fieldS.
  rewrite readText_cell, (Hposn i c Hc), column_cell_nth.
  reflexivity.
Qed.

Lemma field_out_of_range rs (p : Z) :
  Resultset.hasRow rs = true ->
  p < 0 \/ Z.of_nat (length (Resultset.columns rs)) <= p ->
  Resultset.field p rs = Throw out_of_range.
Proof.
  intros Hrow Hp. unfold Resultset.field. rewrite Hrow. simpl.
  now rewrite at_out_of_range.
Qed.

Lemma collect_all {A : Type} (f : Z -> outcome A) (g : nat -> A) (indices : list nat) :
  (forall i, In i indices -> f (Z.of_nat i) = Ok (g i)) ->
  collect f indices = Ok (map g indices).
Proof.
  induction indices as [| i rest IH]; intros H; simpl; [reflexivity |].
  rewrite (H i) by (now left).
  rewrite IH by (intros j Hj; apply H; now right).
  reflexivity.
Qed.

Lemma map_nth_seq {A B : Type} (f : A -> B) (d : A) (l : list A) :
  map (fun i => f (nth i l d)) (seq 0 (length l)) = map f l.
Proof.
  induction l as [| a rest IH]; simpl; [reflexivity |].
  f_equal. rewrite <- seq_shift, map_map. exact IH.
Qed.

(** With a row available, the data count is the number of column objects. *)
Lemma countData_columns rs :
  cursor_ok rs -> Resultset.hasRow rs = true ->
  Resultset.countData rs = Z.of_nat (length (Resultset.columns rs))
  /\ length (current_cells (Resultset.stmnt rs)) = length (Resultset.columns rs).
Proof.
  intros ((_ & Hw) & Hlen & _ & Hhas) Hrow. specialize (Hhas Hrow).
  unfold Resultset.countData, sqlite3_data_count, current_cells.
  destruct (st_row (Resultset.stmnt rs)) as [cells |]; [| congruence].
  rewrite Hw, Hlen. auto.
Qed.

Lemma materialize_row rs :
  cursor_ok rs -> Resultset.hasRow rs = true ->
  collect (fun i => Resultset.field i rs) (upto (Resultset.countData rs))
  = Ok (rendered_row (Resultset.stmnt rs)).
Proof.
  intros Hok Hrow. destruct (countData_columns rs Hok Hrow) as [Hcount Hcells].
  unfold upto, rendered_row. rewrite Hcount, Nat2Z.id, Hcells.
  apply collect_all. intros i Hi. apply in_seq in Hi.
  apply field_in_range; auto. lia.
Qed.

Lemma materialize_rowS rs :
  cursor_ok rs -> Resultset.hasRow rs = true ->
  collect (fun i => Resultset.fieldS i rs) (upto (Resultset.countData rs))
  = Ok (rendered_rowS (Resultset.stmnt rs)).
Proof.
  intros Hok Hrow. destruct (countData_columns rs Hok Hrow) as [Hcount Hcells].
  unfold upto, rendered_rowS. rewrite Hcount, Nat2Z.id, <- Hcells.
  rewrite (collect_all _ (fun i => cell_bytes
             (nth i (current_cells (Resultset.stmnt rs)) CellNull))).
  - f_equal. apply map_nth_seq.
  - intros i Hi. apply in_seq in Hi. apply fieldS_in_range; auto. lia.
Qed.

(** The single state transition of the cursor, by what the engine reports
    next. *)
Lemma step_next rs :
  stmt_ok (Resultset.stmnt rs) ->
  let rs' := snd (Resultset.step rs) in
  Resultset.stmnt rs' = snd (sqlite3_step (Resultset.stmnt rs))
  /\ st_log (Resultset.stmnt rs') = st_log (Resultset.stmnt rs) ++ [call_step]
  /\ st_names (Resultset.stmnt rs') = st_names (Resultset.stmnt rs)
  /\ st_script (Resultset.stmnt rs') = tl (st_script (Resultset.stmnt rs))
  /\ Resultset.columns rs' = Resultset.columns rs
  /\ match next_outcome (Resultset.stmnt rs) with
     | OutRow cells =>
         fst (Resultset.step rs) = Ok tt
         /\ Resultset.hasRow rs' = true
         /\ Resultset.columnPosn rs' = 0
         /\ st_row (Resultset.stmnt rs') = Some cells
     | OutDone =>
         fst (Resultset.step rs) = Ok tt
         /\ Resultset.hasRow rs' = false
         /\ Resultset.columnPosn rs' = Resultset.columnPosn rs
         /\ st_row (Resultset.stmnt rs') = None
     | OutError code =>
         fst (Resultset.step rs)
         = Throw (runtime_error ("Resultset::step error: " +:+ to_string code))
         /\ Resultset.hasRow rs' = Resultset.hasRow rs
         /\ Resultset.columnPosn rs' = Resultset.columnPosn rs
         /\ st_row (Resultset.stmnt rs') = None
     end.
Proof.
  intros [Hscript _]. unfold Resultset.step, sqlite3_step, next_outcome, logged.
  destruct (st_script (Resultset.stmnt rs)) as [| [cells | | code] rest]; simpl;
    try (repeat split; reflexivity).
  inversion Hscript as [| o l Hhead Hrest]; subst.
  destruct Hhead as [Hrow Hdone].
  apply Z.eqb_neq in Hrow. apply Z.eqb_neq in Hdone.
  rewrite Hrow, Hdone. simpl. repeat split; reflexivity.
Qed.

Lemma step_cursor_ok rs :
  cursor_ok rs -> fst (Resultset.step rs) = Ok tt -> cursor_ok (snd (Resultset.step rs)).
Proof.
  intros (Hst & Hlen & Hposn & Hhas) Hok.
  destruct (step_next rs Hst) as (_ & _ & Hnames & Hscript & Hcols & Hnext).
  destruct Hst as [Hfor Hcur].
  assert (Htl : Forall (outcome_ok (length (st_names (Resultset.stmnt rs))))
                       (tl (st_script (Resultset.stmnt rs)))).
  { destruct (st_script (Resultset.stmnt rs)); [constructor | now inversion Hfor]. }
  unfold cursor_ok, stmt_ok. rewrite Hnames, Hscript, Hcols.
  unfold next_outcome in Hnext.
  destruct (st_script (Resultset.stmnt rs)) as [| [cells | | code] rest] eqn:Hs.
  - destruct Hnext as (_ & Hh & _ & Hr). rewrite Hr, Hh.
    repeat split; auto; try discriminate.
  - destruct Hnext as (_ & Hh & _ & Hr). rewrite Hr, Hh.
    inversion Hfor; subst. repeat split; auto; try discriminate.
  - destruct Hnext as (_ & Hh & _ & Hr). rewrite Hr, Hh.
    repeat split; auto; try discriminate.
  - destruct Hnext as (Hthrow & _). rewrite Hthrow in Hok. discriminate.
Qed.

(** The constructor establishes the cursor invariant, with the sequential
    column cursor at zero. *)
Lemma new_cursor_ok st rs :
  stmt_ok st -> Resultset.new st = Ok rs ->
  cursor_ok rs
  /\ Resultset.columnPosn rs = 0
  /\ Resultset.stmnt rs = snd (sqlite3_step st)
  /\ Resultset.hasRow rs
     = match next_outcome st with OutRow _ => true | _ => false end.
Proof.
  intros Hst. unfold Resultset.new.
  set (rs0 := Resultset.mk st false 0 []).
  destruct (step_next rs0 Hst) as (Hstmt & _ & Hnames & Hscript & _ & Hnext).
  destruct Hst as [Hfor Hcur]. simpl in *.
  assert (Htl : Forall (outcome_ok (length (st_names st))) (tl (st_script st))).
  { destruct (st_script st); [constructor | now inversion Hfor]. }
  destruct (Resultset.step rs0) as [[[] | e] rs1] eqn:Hstep; [| discriminate].
  simpl in *. intros H. inversion H; subst; clear H. simpl.
  assert (Hcols : forall st' (names : list string),
            length (map (fun i => ResultColumn.make st' (Z.of_nat i))
                        (upto (Z.of_nat (length names)))) = length names
            /\ forall (i : nat) c,
                 map (fun i => ResultColumn.make st' (Z.of_nat i))
                     (upto (Z.of_nat (length names))) !! i = Some c ->
                 ResultColumn.posn c = Z.of_nat i).
  { intros st' names. unfold upto. rewrite Nat2Z.id. split.
    - now rewrite length_map, length_seq.
    - intros i c Hc. rewrite list_lookup_fmap in Hc.
      destruct (seq 0 (length names) !! i) as [j |] eqn:Hj; [| discriminate].
      apply lookup_seq in Hj. destruct Hj as [Hj _]. simpl in Hc.
      inversion Hc; subst. reflexivity. }
  unfold Resultset.countColumns, sqlite3_column_count.
  destruct (Hcols (Resultset.stmnt rs1) (st_names (Resultset.stmnt rs1)))
    as [Hlen Hposn].
  unfold cursor_ok, stmt_ok. simpl.
  rewrite Hscript, Hnames in *.
  unfold next_outcome in *.
  destruct (st_script st) as [| [cells | | code] rest] eqn:Hs.
  - destruct Hnext as (_ & Hh & Hp & Hr). rewrite Hr, Hh, Hp.
    repeat split; auto; try discriminate.
  - destruct Hnext as (_ & Hh & Hp & Hr). rewrite Hr, Hh, Hp.
    inversion Hfor; subst. repeat split; auto; try discriminate.
  - destruct Hnext as (_ & Hh & Hp & Hr). rewrite Hr, Hh, Hp.
    repeat split; auto; try discriminate.
  - destruct Hnext as (Hthrow & _). discriminate.
Qed.

Lemma example_stmt_ok : stmt_ok example_stmt.
Proof.
  unfold stmt_ok, example_stmt; simpl. split; [| exact I].
  repeat constructor.
Qed.

Lemma example_cursor_ok : cursor_ok example_cursor.
Proof.
  apply (new_cursor_ok example_stmt example_cursor example_stmt_ok).
  reflexivity.
Qed.

Lemma exhausted_cursor_ok : cursor_ok exhausted_cursor.
Proof.
  apply (new_cursor_ok empty_stmt exhausted_cursor).
  - unfold stmt_ok, empty_stmt; simpl. split; [| exact I]. repeat constructor.
  - reflexivity.
Qed.

(** ** C5: materialize, then advance *)

Lemma row_has_row rs :
  cursor_ok rs -> Resultset.hasRow rs = true ->
  Resultset.row rs
  = (match fst (Resultset.step rs) with
     | Ok _ => Ok (Some (rendered_row (Resultset.stmnt rs)))
     | Throw e => Throw e
     end, snd (Resultset.step rs)).
Proof.
  intros Hok Hrow. unfold Resultset.row. rewrite Hrow. simpl.
  rewrite (materialize_row rs Hok Hrow). unfold bindM, ret.
  destruct (Resultset.step rs) as [[[] | e] rs1]; reflexivity.
Qed.

Lemma rowS_has_row rs :
  cursor_ok rs -> Resultset.hasRow rs = true ->
  Resultset.rowS rs
  = (match fst (Resultset.step rs) with
     | Ok _ => Ok (Some (rendered_rowS (Resultset.stmnt rs)))
     | Throw e => Throw e
     end, snd (Resultset.step rs)).
Proof.
  intros Hok Hrow. unfold Resultset.rowS. rewrite Hrow. simpl.
  rewrite (materialize_rowS rs Hok Hrow). unfold bindM, ret.
  destruct (Resultset.step rs) as [[[] | e] rs1]; reflexivity.
Qed.

(** A cursor whose [hasRow] is set while the statement points at no row, as
    a failed step leaves it, hands out an empty row and steps. *)
Lemma row_without_current_row rs :
  Resultset.hasRow rs = true -> st_row (Resultset.stmnt rs) = None ->
  Resultset.row rs
  = (match fst (Resultset.step rs) with
     | Ok _ => Ok (Some [])
     | Throw e => Throw e
     end, snd (Resultset.step rs))
  /\ Resultset.rowS rs
     = (match fst (Resultset.step rs) with
        | Ok _ => Ok (Some [])
        | Throw e => Throw e
        end, snd (Resultset.step rs)).
Proof.
  intros Hrow Hnone.
  unfold Resultset.row, Resultset.rowS, Resultset.countData, sqlite3_data_count.
  rewrite Hrow, Hnone. simpl. unfold bindM, ret.
  destruct (Resultset.step rs) as [[[] | e] rs1]; split; reflexivity.
Qed.

(** Reading the tuple moves the sequential column cursor only, whatever the
    order of evaluation. *)
Lemma readTuple_frame Ts order :
  forall rs,
    let rs' := snd (Resultset.readTuple Ts order rs) in
    Resultset.stmnt rs' = Resultset.stmnt rs
    /\ Resultset.hasRow rs' = Resultset.hasRow rs
    /\ Resultset.columns rs' = Resultset.columns rs
    /\ Resultset.columnPosn rs <= Resultset.columnPosn rs'
       <= Resultset.columnPosn rs + Z.of_nat (length order).
Proof.
  induction order as [| i rest IH]; intros rs; simpl.
  - repeat split; auto; lia.
  - unfold bindM, Resultset.incPos, const_call. simpl.
    set (rs1 := Resultset.mk (Resultset.stmnt rs) (Resultset.hasRow rs)
                             (Resultset.columnPosn rs + 1) (Resultset.columns rs)).
    destruct (Resultset.fieldT_at (nth i Ts T_other) (Resultset.columnPosn rs) rs1)
      as [v | e]; simpl.
    + specialize (IH rs1). simpl in IH.
      destruct (Resultset.readTuple Ts rest rs1) as [[vs | e] rs2]; simpl in *;
        unfold ret; simpl; destruct IH as (H1 & H2 & H3 & H4);
        repeat split; auto; lia.
    + repeat split; auto; lia.
Qed.

Lemma rowT_steps_once Ts order rs tup rs' :
  Resultset.hasRow rs = true ->
  Resultset.rowT Ts order rs = (Ok (Some tup), rs') ->
  Resultset.stmnt rs' = snd (sqlite3_step (Resultset.stmnt rs))
  /\ Resultset.hasRow rs' = Resultset.hasRow (snd (Resultset.step rs)).
Proof.
  intros Hrow. unfold Resultset.rowT. rewrite Hrow. simpl.
  unfold bindM, Resultset.checkTypeCount, const_call.
  destruct (negb (Resultset.countData rs =? Z.of_nat (length Ts))); [discriminate |].
  pose proof (readTuple_frame Ts order rs) as Hfr. simpl in Hfr.
  destruct (Resultset.readTuple Ts order rs) as [[vs | e] rs1]; [| discriminate].
  simpl in Hfr. destruct Hfr as (Hst & Hh & _ & _).
  unfold Resultset.step. rewrite Hst.
  destruct (sqlite3_step (Resultset.stmnt rs)) as [res st'].
  destruct (res =? SQLITE_DONE); [| destruct (res =? SQLITE_ROW)];
    unfold ret; intros H; inversion H; subst; simpl; auto.
Qed.

(** C5, on two cursors that are not exhausted.

    On the example cursor after one [nextField], the statement points at
    the row (7, ann).  [row] and [rowS] return that row and step the
    statement once.  [rowT], with the two types the type-count check
    demands, materializes nothing and does not step: in either order of
    evaluation it throws [std::out_of_range] and the statement has seen no
    further call.

    On the cursor whose second step failed with code 5, [row] threw the
    step error and left [hasRow] set while the statement points at no row;
    called again, [row] and [rowS] return an empty row in place of "no
    value" or a row of the statement's columns. *)
Theorem bulk_accessors_after_nextField :
  let rs1 := snd (Resultset.nextField example_cursor) in
  let rs2 := snd (Resultset.row locked_cursor) in
  (Resultset.hasRow rs1 = true
   /\ st_row (Resultset.stmnt rs1) = Some [int_cell 7; text_cell "ann"]
   /\ fst (Resultset.row rs1) = Ok (Some [("id", "7"); ("name", "ann")]%string)
   /\ st_log (Resultset.stmnt (snd (Resultset.row rs1)))
      = st_log (Resultset.stmnt rs1) ++ [call_step]
   /\ fst (Resultset.rowS rs1) = Ok (Some ["7"; "ann"]%string)
   /\ st_log (Resultset.stmnt (snd (Resultset.rowS rs1)))
      = st_log (Resultset.stmnt rs1) ++ [call_step])
  /\ (fst (Resultset.rowT [T_int; T_string] (left_to_right 2) rs1) = Throw out_of_range
      /\ fst (Resultset.rowT [T_int; T_string] (right_to_left 2) rs1) = Throw out_of_range
      /\ st_log (Resultset.stmnt
                   (snd (Resultset.rowT [T_int; T_string] (left_to_right 2) rs1)))
         = st_log (Resultset.stmnt rs1)
      /\ st_log (Resultset.stmnt
                   (snd (Resultset.rowT [T_int; T_string] (right_to_left 2) rs1)))
         = st_log (Resultset.stmnt rs1))
  /\ (fst (Resultset.row locked_cursor)
      = Throw (runtime_error "Resultset::step error: 5")
      /\ Resultset.hasRow rs2 = true
      /\ st_row (Resultset.stmnt rs2) = None
      /\ sqlite3_column_count (Resultset.stmnt rs2) = 2
      /\ fst (Resultset.row rs2) = Ok (Some [])
      /\ fst (Resultset.rowS rs2) = Ok (Some [])).
Proof. vm_compute. repeat split; reflexivity. Qed.

(** ** C7: the sequential accessor *)

Lemma nextField_unfold rs :
  Resultset.nextField rs
  = (Resultset.field (Resultset.columnPosn rs + 1) rs,
     Resultset.mk (Resultset.stmnt rs) (Resultset.hasRow rs)
                  (Resultset.columnPosn rs + 1) (Resultset.columns rs)).
Proof. reflexivity. Qed.

Lemma after_nextField_state n rs :
  after_nextField n rs
  = Resultset.mk (Resultset.stmnt rs) (Resultset.hasRow rs)
                 (Resultset.columnPosn rs + Z.of_nat n) (Resultset.columns rs).
Proof.
  induction n as [| k IH].
  - simpl. destruct rs; simpl. f_equal. lia.
  - cbn [after_nextField]. rewrite IH, nextField_unfold. simpl. f_equal. lia.
Qed.

Lemma cursor_ok_columnPosn rs q :
  cursor_ok rs ->
  cursor_ok (Resultset.mk (Resultset.stmnt rs) (Resultset.hasRow rs) q
                          (Resultset.columns rs)).
Proof. intros H. exact H. Qed.

(** C7. On a fresh cursor over a row of [N] columns, the [j]-th call of
    [nextField] returns column [j] (its name and the bytes of its cell) for
    [j = 1 .. N-1], so the first call returns column 1 and column 0 is never
    returned; the [N]-th call fails with [IndexOutOfRange]. *)
Theorem nextField_sequence (st : sqlite3_stmt) (rs : Resultset.t) :
  stmt_ok st ->
  Resultset.new st = Ok rs ->
  Resultset.hasRow rs = true ->
  let N := length (st_names (Resultset.stmnt rs)) in
  (forall j : nat,
      (1 <= j < N)%nat ->
      fst (Resultset.nextField (after_nextField (j - 1) rs))
      = Ok (nth j (st_names (Resultset.stmnt rs)) EmptyString,
            cell_bytes (nth j (current_cells (Resultset.stmnt rs)) CellNull)))
  /\ ((1 <= N)%nat ->
      exists e,
        fst (Resultset.nextField (after_nextField (N - 1) rs)) = Throw e
        /\ IndexOutOfRange e).
Proof.
  intros Hst Hnew Hrow N.
  destruct (new_cursor_ok st rs Hst Hnew) as (Hok & Hposn & _).
  assert (Hlen : length (Resultset.columns rs) = N) by apply Hok.
  split.
  - intros j Hj. rewrite after_nextField_state, nextField_unfold. simpl.
    rewrite Hposn.
    replace (0 + Z.of_nat (j - 1) + 1) with (Z.of_nat j) by lia.
    apply (field_in_range
             (Resultset.mk (Resultset.stmnt rs) (Resultset.hasRow rs)
                           (0 + Z.of_nat (j - 1)) (Resultset.columns rs)) j).
    + apply cursor_ok_columnPosn. exact Hok.
    + exact Hrow.
    + simpl. lia.
  - intros HN. exists out_of_range. split; [| reflexivity].
    rewrite after_nextField_state, nextField_unfold. simpl.
    apply field_out_of_range; simpl; [exact Hrow |]. right. lia.
Qed.

Lemma nextField_sequence_witness :
  fst (Resultset.nextField example_cursor) = Ok ("name", "ann")%string
  /\ exists e,
       fst (Resultset.nextField (after_nextField 1 example_cursor)) = Throw e
       /\ IndexOutOfRange e.
Proof.
  destruct (nextField_sequence example_stmt example_cursor example_stmt_ok eq_refl eq_refl)
    as [Hcols Hlast].
  split.
  - exact (Hcols 1%nat ltac:(simpl; lia)).
  - exact (Hlast ltac:(simpl; lia)).
Defined.

(** ** C9: the one-shot query *)

Lemma callback_row c (r : list (string * option string)) :
  Connection.callback c (Z.of_nat (length r)) (map snd r) (map fst r)
  = (0, Connection.mk (Connection.sqliteDb c) (Connection.errorMsg c)
          (Connection.results c ++ [map (fun f => (fst f, fixNullStr (snd f))) r])).
Proof.
  unfold Connection.callback, Connection.processSqlite3Callback, upto.
  rewrite Nat2Z.id. do 4 f_equal.
  rewrite <- (map_nth_seq (fun f => (fst f, fixNullStr (snd f))) (EmptyString, None) r).
  apply map_ext. intros i.
  rewrite <- (map_nth fst r (EmptyString, None) i).
  rewrite <- (map_nth snd r (EmptyString, None) i).
  reflexivity.
Qed.

Lemma run_callbacks_all rows :
  forall c,
    run_callbacks Connection.callback rows c
    = (true, Connection.mk (Connection.sqliteDb c) (Connection.errorMsg c)
               (Connection.results c ++ table_of rows)).
Proof.
  induction rows as [| r rest IH]; intros c; cbn [run_callbacks].
  - simpl. rewrite app_nil_r. now destruct c.
  - rewrite callback_row. simpl. rewrite IH. simpl.
    now rewrite <- app_assoc.
Qed.

Lemma quickQuery_unfold q c :
  Connection.quickQuery q c
  = let o := next_exec (Connection.sqliteDb c) in
    let c' := Connection.mk (mk_db (tl (db_script (Connection.sqliteDb c))))
                            (fixNullStr (ex_errmsg o)) (table_of (ex_rows o)) in
    if negb (String.eqb (fixNullStr (ex_errmsg o)) EmptyString) then
      (Throw (runtime_error ("Connection::QuickQuery error: "
                             +:+ fixNullStr (ex_errmsg o))), c')
    else (Ok (table_of (ex_rows o)), c').
Proof.
  unfold Connection.quickQuery, sqlite3_exec, next_exec. simpl.
  destruct (Connection.sqliteDb c) as [script]. simpl.
  destruct script as [| o rest]; simpl; [reflexivity |].
  rewrite run_callbacks_all. simpl. reflexivity.
Qed.



(** ** C10: [rowT] reads from the sequential column cursor *)

Lemma reads_at_columnPosn Ts order :
  forall rs k q,
    reads_at (Resultset.mk (Resultset.stmnt rs) (Resultset.hasRow rs) q
                           (Resultset.columns rs)) k Ts order
    = reads_at rs k Ts order.
Proof.
  induction order as [| i rest IH]; intros rs k q; simpl; [reflexivity |].
  rewrite IH. reflexivity.
Qed.

Lemma readTuple_reads Ts order :
  forall rs,
    fst (Resultset.readTuple Ts order rs)
    = reads_at rs (Resultset.columnPosn rs) Ts order.
Proof.
  induction order as [| i rest IH]; intros rs; simpl; [reflexivity |].
  unfold bindM, Resultset.incPos, const_call. simpl.
  set (rs1 := Resultset.mk (Resultset.stmnt rs) (Resultset.hasRow rs)
                           (Resultset.columnPosn rs + 1) (Resultset.columns rs)).
  change (Resultset.fieldT_at (nth i Ts T_other) (Resultset.columnPosn rs) rs1)
    with (Resultset.fieldT_at (nth i Ts T_other) (Resultset.columnPosn rs) rs).
  destruct (Resultset.fieldT_at (nth i Ts T_other) (Resultset.columnPosn rs) rs)
    as [v | e]; [| reflexivity].
  specialize (IH rs1).
  pose proof (reads_at_columnPosn Ts rest rs (Resultset.columnPosn rs + 1)
                (Resultset.columnPosn rs + 1)) as Hq.
  fold rs1 in Hq.
  change (Resultset.columnPosn rs1) with (Resultset.columnPosn rs + 1) in IH.
  rewrite Hq in IH. rewrite <- IH.
  destruct (Resultset.readTuple Ts rest rs1) as [[vs | e] rs2]; reflexivity.
Qed.

Lemma rowT_has_row Ts order rs :
  Resultset.hasRow rs = true ->
  Resultset.countData rs = Z.of_nat (length Ts) ->
  Resultset.rowT Ts order rs
  = match reads_at rs (Resultset.columnPosn rs) Ts order with
    | Throw e => (Throw e, snd (Resultset.readTuple Ts order rs))
    | Ok args =>
        (match fst (Resultset.step (snd (Resultset.readTuple Ts order rs))) with
         | Ok _ => Ok (Some (Resultset.make_tuple (length Ts) args))
         | Throw e => Throw e
         end,
         snd (Resultset.step (snd (Resultset.readTuple Ts order rs))))
    end.
Proof.
  intros Hrow Hcount. unfold Resultset.rowT. rewrite Hrow. simpl.
  unfold bindM, Resultset.checkTypeCount, const_call.
  rewrite Hcount, Z.eqb_refl. simpl.
  rewrite <- readTuple_reads.
  destruct (Resultset.readTuple Ts order rs) as [[args | e] rs1]; simpl;
    [| reflexivity].
  destruct (Resultset.step rs1) as [[[] | e] rs2]; reflexivity.
Qed.

Lemma run_seq_call_state rs c :
  run_seq_call rs c
  = Resultset.mk (Resultset.stmnt rs) (Resultset.hasRow rs)
                 (Resultset.columnPosn rs + 1) (Resultset.columns rs).
Proof. destruct c; reflexivity. Qed.

Lemma run_seq_state calls :
  forall rs,
    run_seq calls rs
    = Resultset.mk (Resultset.stmnt rs) (Resultset.hasRow rs)
                   (Resultset.columnPosn rs + Z.of_nat (length calls))
                   (Resultset.columns rs).
Proof.
  unfold run_seq. induction calls as [| c rest IH]; intros rs.
  - simpl. destruct rs; simpl. f_equal. lia.
  - cbn [fold_left]. rewrite IH, run_seq_call_state. simpl. f_equal. lia.
Qed.

(** A typed read of a supported type throws only past the column objects. *)
Lemma fieldT_at_supported T k rs :
  supported T ->
  (exists v, Resultset.fieldT_at T k rs = Ok v)
  \/ Resultset.fieldT_at T k rs = Throw out_of_range.
Proof.
  intros HT. unfold Resultset.fieldT_at.
  destruct (negb (Resultset.hasRow rs)); [left; eauto |].
  unfold at_. destruct (k <? 0); [now right |].
  destruct (Resultset.columns rs !! Z.to_nat k) as [c |]; [| now right].
  left. unfold ResultColumn.read.
  destruct (ResultColumn.type c =? SQLITE_NULL); [eauto |].
  destruct T; eauto. now contradiction HT.
Qed.

(** Typed reads that run past the last column object throw, whatever the
    order of evaluation; when every type read is supported, what they throw
    is [std::out_of_range]. *)
Lemma reads_at_past_end Ts order :
  forall rs k,
    Resultset.hasRow rs = true ->
    order <> [] ->
    0 <= k ->
    Z.of_nat (length (Resultset.columns rs)) < k + Z.of_nat (length order) ->
    exists e,
      reads_at rs k Ts order = Throw e
      /\ (Forall (fun i => supported (nth i Ts T_other)) order -> e = out_of_range).
Proof.
  induction order as [| i rest IH]; intros rs k Hrow Hne Hk Hpast; [congruence |].
  cbn [reads_at].
  destruct (Z_lt_le_dec k (Z.of_nat (length (Resultset.columns rs)))) as [Hin | Hout].
  - destruct (Resultset.fieldT_at (nth i Ts T_other) k rs) as [v | e] eqn:Hread.
    + destruct (IH rs (k + 1) Hrow) as (e & He & Hsup).
      * destruct rest; [simpl in Hpast; lia | discriminate].
      * lia.
      * simpl length in Hpast. lia.
      * rewrite He. exists e. split; [reflexivity |].
        intros Hall. apply Hsup. now inversion Hall.
    + exists e. split; [reflexivity |].
      intros Hall. inversion Hall as [| i' rest' Hi _]; subst.
      destruct (fieldT_at_supported _ k rs Hi) as [[v Hv] | Hthrow]; congruence.
  - unfold Resultset.fieldT_at. rewrite Hrow. simpl.
    rewrite at_out_of_range by (right; exact Hout). eauto.
Qed.

Lemma evaluation_order_length n order :
  evaluation_order n order -> length order = n.
Proof.
  intros H. apply Permutation_length in H. now rewrite length_seq in H.
Qed.

Lemma evaluation_order_lt n order (m i : nat) :
  evaluation_order n order -> order !! m = Some i -> (i < n)%nat.
Proof.
  intros H Hm. apply list_elem_of_lookup_2 in Hm.
  rewrite H in Hm. apply elem_of_seq in Hm. lia.
Qed.

Lemma evaluation_order_supported Ts order :
  evaluation_order (length Ts) order ->
  Forall supported Ts ->
  Forall (fun i => supported (nth i Ts T_other)) order.
Proof.
  intros Hperm Hsup. apply Forall_lookup. intros m i Hm.
  pose proof (evaluation_order_lt _ _ _ _ Hperm Hm) as Hi.
  destruct (lookup_lt_is_Some_2 Ts i Hi) as [T HT].
  rewrite (nth_lookup_Some _ _ _ _ HT).
  rewrite Forall_lookup in Hsup. exact (Hsup i T HT).
Qed.

(** C10. The sequential accessors each add one to the column cursor and
    nothing but a step that produces a row sets it back to zero.  [rowT]
    does not reset it: after [j] sequential calls on the current row, and
    whatever the order in which the compiler evaluates the arguments of
    [std::make_tuple], the argument evaluated first reads column [j], the
    next one column [j+1], and so on, in place of the columns [0 .. n-1];
    with [j >= 1] and the arity that the type-count check demands, a read
    falls past the last column, so the call throws ([std::out_of_range]
    when every requested type is supported) and the statement is not
    stepped. *)
Theorem rowT_reads_from_column_cursor (rs : Resultset.t) (calls : list SeqCall)
    (Ts : list ReadType) (order : list nat) :
  cursor_ok rs ->
  Resultset.hasRow rs = true ->
  Resultset.columnPosn rs = 0 ->
  Resultset.countData rs = Z.of_nat (length Ts) ->
  evaluation_order (length Ts) order ->
  let rs1 := run_seq calls rs in
  Resultset.columnPosn rs1 = Z.of_nat (length calls)
  /\ Resultset.stmnt rs1 = Resultset.stmnt rs
  /\ fst (Resultset.rowT Ts order rs1)
     = match reads_at rs (Z.of_nat (length calls)) Ts order with
       | Throw e => Throw e
       | Ok args =>
           match fst (Resultset.step rs) with
           | Ok _ => Ok (Some (Resultset.make_tuple (length Ts) args))
           | Throw e => Throw e
           end
       end
  /\ (calls <> [] -> Ts <> [] ->
      exists e,
        fst (Resultset.rowT Ts order rs1) = Throw e
        /\ (Forall supported Ts -> e = out_of_range)
        /\ Resultset.stmnt (snd (Resultset.rowT Ts order rs1)) = Resultset.stmnt rs)
  /\ Resultset.columnPosn (snd (Resultset.step rs1))
     = match next_outcome (Resultset.stmnt rs) with
       | OutRow _ => 0
       | _ => Z.of_nat (length calls)
       end.
Proof.
  intros Hok Hrow Hposn Hcount Hperm rs1.
  assert (Hrs1 : rs1 = Resultset.mk (Resultset.stmnt rs) (Resultset.hasRow rs)
                         (Z.of_nat (length calls)) (Resultset.columns rs)).
  { subst rs1. rewrite run_seq_state, Hposn. reflexivity. }
  clearbody rs1. subst rs1.
  set (rs1 := Resultset.mk (Resultset.stmnt rs) (Resultset.hasRow rs)
                           (Z.of_nat (length calls)) (Resultset.columns rs)).
  assert (Hrow1 : Resultset.hasRow rs1 = true) by exact Hrow.
  assert (Hcount1 : Resultset.countData rs1 = Z.of_nat (length Ts)) by exact Hcount.
  assert (Hreads : reads_at rs1 (Resultset.columnPosn rs1) Ts order
                   = reads_at rs (Z.of_nat (length calls)) Ts order)
    by apply reads_at_columnPosn.
  pose proof (readTuple_frame Ts order rs1) as Hfr. simpl in Hfr.
  destruct Hfr as (Hst & Hh & Hc & _).
  split; [reflexivity |]. split; [reflexivity |].
  rewrite (rowT_has_row Ts order rs1 Hrow1 Hcount1), Hreads.
  split; [| split].
  - destruct (reads_at rs (Z.of_nat (length calls)) Ts order) as [args | e]; simpl;
      [| reflexivity].
    unfold Resultset.step. rewrite Hst. simpl.
    destruct (sqlite3_step (Resultset.stmnt rs)) as [res st'].
    destruct (res =? SQLITE_DONE); [reflexivity |].
    destruct (res =? SQLITE_ROW); reflexivity.
  - intros Hcalls HTs.
    pose proof (evaluation_order_length _ _ Hperm) as Hlen.
    destruct (reads_at_past_end Ts order rs (Z.of_nat (length calls)) Hrow)
      as (e & He & Hsup).
    + intros Hnil. rewrite Hnil in Hlen. destruct Ts; [congruence | discriminate].
    + lia.
    + destruct (countData_columns rs Hok Hrow) as [Hcd _].
      rewrite Hcd in Hcount. rewrite Hlen.
      destruct calls; [congruence | simpl length; lia].
    + rewrite He. simpl. exists e. split; [reflexivity |]. split; [| exact Hst].
      intros Hall. apply Hsup. now apply evaluation_order_supported.
  - destruct Hok as (Hstok & _).
    destruct (step_next rs1 Hstok) as (_ & _ & _ & _ & _ & Hnext).
    simpl in Hnext.
    destruct (next_outcome (Resultset.stmnt rs)); destruct Hnext as (_ & _ & Hp & _);
      exact Hp.
Qed.

Lemma rowT_reads_from_column_cursor_witness :
  Resultset.columnPosn (run_seq [seq_nextField] example_cursor) = 1
  /\ exists e,
       fst (Resultset.rowT [T_int; T_string] (right_to_left 2)
              (run_seq [seq_nextField] example_cursor))
       = Throw e
       /\ (Forall supported [T_int; T_string] -> e = out_of_range)
       /\ Resultset.stmnt (snd (Resultset.rowT [T_int; T_string] (right_to_left 2)
                                  (run_seq [seq_nextField] example_cursor)))
          = Resultset.stmnt example_cursor.
Proof.
  assert (Hperm : evaluation_order (length [T_int; T_string]) (right_to_left 2)).
  { vm_compute. apply perm_swap. }
  destruct (rowT_reads_from_column_cursor example_cursor [seq_nextField]
              [T_int; T_string] (right_to_left 2) example_cursor_ok eq_refl eq_refl
              eq_refl Hperm)
    as (H1 & _ & _ & H2 & _).
  split; [exact H1 |].
  apply H2; discriminate.
Defined.

(** ** C2: [rowT] *)

Lemma rowT_exhausted Ts order rs :
  Resultset.hasRow rs = false -> Resultset.rowT Ts order rs = (Ok None, rs).
Proof. intros H. unfold Resultset.rowT. now rewrite H. Qed.

(** With a row available, a type list whose length differs from the column
    count is refused before any column is read, and the message tells the
    direction. *)
Lemma rowT_arity_mismatch Ts order rs :
  Resultset.hasRow rs = true ->
  Resultset.countData rs <> Z.of_nat (length Ts) ->
  exists e,
    Resultset.rowT Ts order rs = (Throw e, rs)
    /\ TypeArityError e
    /\ (Z.of_nat (length Ts) > Resultset.countData rs ->
        e = runtime_error "too many types")
    /\ (Z.of_nat (length Ts) < Resultset.countData rs ->
        e = runtime_error "too few types").
Proof.
  intros Hrow Hne. unfold Resultset.rowT. rewrite Hrow. simpl.
  unfold bindM, Resultset.checkTypeCount, const_call.
  apply Z.eqb_neq in Hne. rewrite Hne. simpl.
  destruct (Z.of_nat (length Ts) >? Resultset.countData rs) eqn:Hgt.
  - eexists. unfold TypeArityError. repeat split; auto.
    intros Hlt. apply Z.gtb_lt in Hgt. lia.
  - eexists. unfold TypeArityError. repeat split; auto.
    intros Hgt'. rewrite Z.gtb_ltb in Hgt. apply Z.ltb_ge in Hgt. lia.
Qed.

(** On a cursor whose sequential column cursor is at zero, [rowT] reads
    columns [0 .. n-1], one per argument in the order of evaluation, and
    then steps. *)
Lemma rowT_fresh Ts order rs :
  Resultset.hasRow rs = true ->
  Resultset.columnPosn rs = 0 ->
  Resultset.countData rs = Z.of_nat (length Ts) ->
  fst (Resultset.rowT Ts order rs)
  = match reads_at rs 0 Ts order with
    | Throw e => Throw e
    | Ok args =>
        match fst (Resultset.step rs) with
        | Ok _ => Ok (Some (Resultset.make_tuple (length Ts) args))
        | Throw e => Throw e
        end
    end.
Proof.
  intros Hrow Hposn Hcount. rewrite (rowT_has_row Ts order rs Hrow Hcount), Hposn.
  destruct (reads_at rs 0 Ts order) as [args | e]; simpl; [| reflexivity].
  pose proof (readTuple_frame Ts order rs) as Hfr. simpl in Hfr.
  destruct Hfr as (Hst & _). unfold Resultset.step. rewrite Hst.
  destruct (sqlite3_step (Resultset.stmnt rs)) as [res st'].
  destruct (res =? SQLITE_DONE); [reflexivity |].
  destruct (res =? SQLITE_ROW); reflexivity.
Qed.

(** C2, on a cursor with a row of two columns on which [nextField] was
    called once.  Two types are requested, so the type count matches and
    [rowT] is to read the two columns and step.  Its two reads are made at
    columns 1 and 2, in whichever order the two arguments are evaluated:
    it throws [std::out_of_range] and does not step.  On the fresh cursor
    the same call returns both columns when the arguments are evaluated
    left to right; evaluated right to left, the [std::string] argument
    reads column 0 and the [int] argument column 1. *)
Theorem rowT_after_nextField_out_of_range :
  let rs1 := snd (Resultset.nextField example_cursor) in
  Resultset.hasRow rs1 = true
  /\ Resultset.countData rs1 = 2
  /\ fst (Resultset.rowT [T_int; T_string] (left_to_right 2) rs1) = Throw out_of_range
  /\ fst (Resultset.rowT [T_int; T_string] (right_to_left 2) rs1) = Throw out_of_range
  /\ Resultset.stmnt (snd (Resultset.rowT [T_int; T_string] (left_to_right 2) rs1))
     = Resultset.stmnt rs1
  /\ Resultset.stmnt (snd (Resultset.rowT [T_int; T_string] (right_to_left 2) rs1))
     = Resultset.stmnt rs1
  /\ fst (Resultset.rowT [T_int; T_string] (left_to_right 2) example_cursor)
     = Ok (Some [Some (V_int 7); Some (V_string "ann")])
  /\ fst (Resultset.rowT [T_int; T_string] (right_to_left 2) example_cursor)
     = Ok (Some [Some (V_int 0); Some (V_string "7")]).
Proof. vm_compute. repeat split; reflexivity. Qed.

(** ** C3: the peeks on an exhausted cursor *)

Lemma field_exhausted p rs :
  Resultset.hasRow rs = false -> Resultset.field p rs = Ok default_field.
Proof. intros H. unfold Resultset.field. now rewrite H. Qed.

Lemma field_by_name_unknown name rs :
  posn_from_none name rs ->
  exists e, Resultset.field_by_name name rs = Throw e /\ ColumnNotFound name e.
Proof.
  unfold posn_from_none, Resultset.field_by_name, Resultset.posn. intros H.
  rewrite H. eexists. split; reflexivity.
Qed.

(** C3, on the exhausted cursor over the empty table.  The positional peek
    returns the default empty field.  The named peek has no exhaustion
    guard: for a selected column it returns a field carrying that column's
    name, which is not the default empty field, and for an unknown name it
    throws. *)
Theorem field_by_name_exhausted_not_default :
  Resultset.hasRow exhausted_cursor = false
  /\ Resultset.field 0 exhausted_cursor = Ok default_field
  /\ Resultset.field_by_name "id" exhausted_cursor = Ok ("id", "")%string
  /\ Resultset.field_by_name "id" exhausted_cursor <> Ok default_field
  /\ Resultset.field_by_name "nope" exhausted_cursor
     = Throw (runtime_error "nope col name not found").
Proof.
  repeat split; try reflexivity. vm_compute. discriminate.
Qed.

(** ** C4: NULL at the typed read *)

Lemma read_null T st c :
  ResultColumn.type c = SQLITE_NULL -> ResultColumn.read T st c = Ok None.
Proof. intros H. unfold ResultColumn.read. now rewrite H. Qed.

(** The string read of a NULL cell is the empty string. *)
Lemma fieldS_null rs (i : nat) :
  cursor_ok rs -> Resultset.hasRow rs = true ->
  (i < length (Resultset.columns rs))%nat ->
  nth i (current_cells (Resultset.stmnt rs)) CellNull = CellNull ->
  Resultset.fieldS (Z.of_nat i) rs = Ok EmptyString.
Proof.
  intros Hok Hrow Hi Hnull. rewrite (fieldS_in_range rs i Hok Hrow Hi), Hnull.
  reflexivity.
Qed.

(** On the row the cursor was constructed on, a NULL cell reads as "no
    value" whatever type is requested. *)
Lemma fieldT_null_first_row st rs T (i : nat) :
  stmt_ok st -> Resultset.new st = Ok rs -> Resultset.hasRow rs = true ->
  (i < length (Resultset.columns rs))%nat ->
  nth i (current_cells (Resultset.stmnt rs)) CellNull = CellNull ->
  Resultset.fieldT_at T (Z.of_nat i) rs = Ok None.
Proof.
  intros Hst Hnew Hrow Hi Hnull.
  unfold Resultset.new in Hnew.
  destruct (Resultset.step (Resultset.mk st false 0 [])) as [[[] | e] rs0] eqn:Hstep;
    [| discriminate].
  inversion Hnew; subst; clear Hnew. simpl in *.
  unfold Resultset.fieldT_at. simpl. rewrite Hrow. simpl.
  destruct (lookup_lt_is_Some_2 _ i Hi) as [c Hc].
  rewrite (at_in_range _ _ _ Hc).
  rewrite list_lookup_fmap in Hc.
  destruct (upto (Resultset.countColumns rs0) !! i) as [j |] eqn:Hj; [| discriminate].
  unfold upto in Hj. apply lookup_seq in Hj. destruct Hj as [Hj _]. simpl in Hj, Hc.
  inversion Hc; subst; clear Hc.
  apply read_null. unfold ResultColumn.make. simpl.
  unfold sqlite3_column_type. rewrite column_cell_nth, Hnull. reflexivity.
Qed.

(** C4, on the second row of the example query, whose [id] is NULL while
    the first row's was an integer.  The engine reports the NULL storage
    class for column 0; the typed read returns the value zero in place of
    "no value", because the column object still carries the storage class
    of the row the cursor was constructed on.  The string read returns the
    empty string. *)
Theorem fieldT_null_after_step_has_value :
  let rs2 := snd (Resultset.row example_cursor) in
  Resultset.hasRow rs2 = true
  /\ sqlite3_column_type (Resultset.stmnt rs2) 0 = SQLITE_NULL
  /\ Resultset.fieldT_at T_int 0 rs2 = Ok (Some (V_int 0))
  /\ Resultset.fieldT_at T_string 0 rs2 = Ok (Some (V_string ""))
  /\ Resultset.fieldS 0 rs2 = Ok EmptyString.
Proof. vm_compute. repeat split; reflexivity. Qed.

(** ** Further facts: [execute] and preservation of the cursor invariant *)

(** [execute] surfaces the arity failure of [setParams]. *)
Lemma execute_arity_mismatch fs values st :
  Z.of_nat (length values) <> sqlite3_bind_parameter_count st ->
  exists e, PreparedStatement.execute fs values st = Throw e /\ BindArityError e.
Proof.
  intros Hne. unfold PreparedStatement.execute.
  rewrite (setParams_mismatch fs values (Binder.mk 0 st) Hne).
  simpl. eexists. split; [reflexivity |].
  unfold BindArityError.
  destruct (Z.of_nat (length values) >? sqlite3_bind_parameter_count st);
    [left | right]; reflexivity.
Qed.

Lemma row_cursor_ok rs r rs' :
  cursor_ok rs -> Resultset.row rs = (Ok r, rs') -> cursor_ok rs'.
Proof.
  intros Hok. destruct (Resultset.hasRow rs) eqn:Hrow.
  - rewrite (row_has_row rs Hok Hrow).
    destruct (fst (Resultset.step rs)) as [[] | e] eqn:Hstep; [| discriminate].
    intros H. inversion H; subst. now apply step_cursor_ok.
  - unfold Resultset.row. rewrite Hrow. simpl. intros H. now inversion H; subst.
Qed.

(** ** The binder beyond the claims *)

Lemma engine_bind_rest call pos v st :
  let st' := snd (engine_bind call pos v st) in
  st_names st' = st_names st /\ st_row st' = st_row st
  /\ st_script st' = st_script st /\ st_reset_rc st' = st_reset_rc st.
Proof.
  unfold engine_bind. destruct (st_busy st); simpl; [auto |].
  destruct ((pos <? 1) || (Z.of_nat (length (st_slots st)) <? pos)); simpl;
    [auto |].
  destruct (too_big (lib_limit_length (st_library st)) v); simpl; auto.
Qed.

Lemma sqlite3_bind_blob_rest pos buffer n st :
  let st' := snd (sqlite3_bind_blob pos buffer n st) in
  st_names st' = st_names st /\ st_row st' = st_row st
  /\ st_script st' = st_script st /\ st_reset_rc st' = st_reset_rc st.
Proof.
  unfold sqlite3_bind_blob. destruct (n <? 0); simpl; [auto |].
  apply engine_bind_rest.
Qed.

(** One bind logs the native call of its parameter and leaves the result
    side of the statement alone. *)
Lemma bind_log fs v b :
  let b' := snd (Binder.bind fs v b) in
  st_log (Binder.stmnt b')
  = st_log (Binder.stmnt b) ++ call_of fs (Binder.bindPosn b + 1) v
  /\ st_names (Binder.stmnt b') = st_names (Binder.stmnt b)
  /\ st_row (Binder.stmnt b') = st_row (Binder.stmnt b)
  /\ st_script (Binder.stmnt b') = st_script (Binder.stmnt b)
  /\ st_reset_rc (Binder.stmnt b') = st_reset_rc (Binder.stmnt b).
Proof.
  set (b1 := Binder.mk (Binder.bindPosn b + 1) (Binder.stmnt b)).
  assert (Hskip : forall r : outcome unit,
            st_log (Binder.stmnt (snd (r, b1))) = st_log (Binder.stmnt b) ++ []
            /\ st_names (Binder.stmnt (snd (r, b1))) = st_names (Binder.stmnt b)
            /\ st_row (Binder.stmnt (snd (r, b1))) = st_row (Binder.stmnt b)
            /\ st_script (Binder.stmnt (snd (r, b1))) = st_script (Binder.stmnt b)
            /\ st_reset_rc (Binder.stmnt (snd (r, b1))) = st_reset_rc (Binder.stmnt b)).
  { intros r. simpl. rewrite app_nil_r. auto. }
  assert (Hengine : forall call bound,
            let st' := snd (engine_bind call (Binder.bindPosn b + 1) bound (Binder.stmnt b)) in
            st_log st' = st_log (Binder.stmnt b) ++ [call]
            /\ st_names st' = st_names (Binder.stmnt b)
            /\ st_row st' = st_row (Binder.stmnt b)
            /\ st_script st' = st_script (Binder.stmnt b)
            /\ st_reset_rc st' = st_reset_rc (Binder.stmnt b)).
  { intros call bound. split; [apply engine_bind_frame | apply engine_bind_rest]. }
  assert (Hblob : forall s,
            let st' := Binder.stmnt (snd (Binder.bindBlob s b1)) in
            st_log st' = st_log (Binder.stmnt b)
                         ++ [call_bind_blob (Binder.bindPosn b + 1) s
                               (static_cast_int (Z.of_nat (String.length s)))]
            /\ st_names st' = st_names (Binder.stmnt b)
            /\ st_row st' = st_row (Binder.stmnt b)
            /\ st_script st' = st_script (Binder.stmnt b)
            /\ st_reset_rc st' = st_reset_rc (Binder.stmnt b)).
  { intros s. unfold b1. rewrite bindBlob_result. simpl.
    split; [apply sqlite3_bind_blob_frame | apply sqlite3_bind_blob_rest]. }
  assert (Htext : forall s,
            let st' := Binder.stmnt (snd (Binder.bindText s b1)) in
            st_log st' = st_log (Binder.stmnt b)
                         ++ [call_bind_text (Binder.bindPosn b + 1) s (-1)]
            /\ st_names st' = st_names (Binder.stmnt b)
            /\ st_row st' = st_row (Binder.stmnt b)
            /\ st_script st' = st_script (Binder.stmnt b)
            /\ st_reset_rc st' = st_reset_rc (Binder.stmnt b)).
  { intros s. unfold b1. rewrite bindText_result. simpl. apply Hengine. }
  destruct v.
  - change (Binder.bind fs (ParamInt v) b) with (Binder.bindInt v b1).
    unfold Binder.bindInt, b1. cbn [Binder.bindPosn Binder.stmnt].
    rewrite native_bind_result. simpl. apply Hengine.
  - change (Binder.bind fs (ParamDouble d) b) with (Binder.bindDouble d b1).
    unfold Binder.bindDouble, b1. cbn [Binder.bindPosn Binder.stmnt].
    rewrite native_bind_result. simpl. apply Hengine.
  - change (Binder.bind fs (ParamCStr s) b) with (Binder.bindText s b1).
    apply Htext.
  - rewrite bind_ParamString. fold b1. simpl call_of.
    destruct (Nat.eqb (strlen s) (String.length s)); [apply Htext | apply Hblob].
  - rewrite bind_ParamPath. fold b1. simpl call_of.
    destruct (fs p) as [| content [|] | f];
      [apply Hskip | apply Hblob | apply Hskip | apply Hskip].
  - change (Binder.bind fs ParamNullptr b)
      with ((res <- Binder.native (sqlite3_bind_null (Binder.bindPosn b + 1)) ;;
             Binder.checkResult res) b1).
    unfold b1. rewrite native_bind_result. simpl. apply Hengine.
  - change (Binder.bind fs ParamOther b) with (@Ok unit tt, b1). apply Hskip.
Qed.


Lemma doBinds_log fs values :
  forall b b',
    0 <= Binder.bindPosn b ->
    Binder.doBinds fs values b = (Ok tt, b') ->
    st_log (Binder.stmnt b')
    = st_log (Binder.stmnt b) ++ calls_from fs (Binder.bindPosn b + 1) values
    /\ st_names (Binder.stmnt b') = st_names (Binder.stmnt b)
    /\ st_row (Binder.stmnt b') = st_row (Binder.stmnt b)
    /\ st_script (Binder.stmnt b') = st_script (Binder.stmnt b)
    /\ st_reset_rc (Binder.stmnt b') = st_reset_rc (Binder.stmnt b).
Proof.
  induction values as [| v rest IH]; intros b b' Hp H; simpl in H.
  - unfold ret in H. inversion H; subst. simpl. rewrite app_nil_r. auto.
  - unfold bindM in H.
    pose proof (bind_log fs v b) as Hb. simpl in Hb.
    destruct (Binder.bind fs v b) as [[[] | e] b1] eqn:E1; [| discriminate].
    simpl in Hb. destruct Hb as (Hl & Hn & Hr & Hs & Hc).
    destruct (bind_frame fs v b (Ok tt) b1 Hp E1) as [Hp1 _].
    destruct (IH b1 b' ltac:(lia) H) as (Hl2 & Hn2 & Hr2 & Hs2 & Hc2).
    rewrite Hl2, Hl, Hp1, Hn2, Hr2, Hs2, Hc2. simpl calls_from.
    rewrite <- app_assoc. auto.
Qed.


Lemma setParams_effect fs values b b' :
  Binder.setParams fs values b = (Ok tt, b') ->
  st_log (Binder.stmnt b')
  = st_log (Binder.stmnt b) ++ call_reset :: calls_from fs 1 values
  /\ Binder.bindPosn b' = Z.of_nat (length values)
  /\ st_busy (Binder.stmnt b') = false
  /\ st_row (Binder.stmnt b') = None
  /\ st_script (Binder.stmnt b') = st_script (Binder.stmnt b)
  /\ st_names (Binder.stmnt b') = st_names (Binder.stmnt b).
Proof.
  intros H. apply setParams_ok_inv in H. destruct H as (_ & _ & H).
  set (b0 := Binder.mk 0 (snd (sqlite3_reset (Binder.stmnt b)))) in *.
  destruct (doBinds_log fs values b0 b' ltac:(simpl; lia) H)
    as (Hl & Hn & Hr & Hs & _).
  destruct (doBinds_frame fs values b0 (Ok tt) b' ltac:(simpl; lia) H)
    as ((_ & Hbusy & _) & Hp).
  rewrite Hl, Hn, Hr, Hs, Hbusy, (Hp eq_refl). simpl.
  unfold logged. rewrite <- app_assoc. simpl. repeat split; auto.
Qed.



(** A successful [setParams] issues exactly one reset and then the binds of
    its parameters in order, at positions 1, 2, ...; it leaves the position
    counter at the number of values and the statement not busy, pointing at
    no row, with the coming steps as they were. *)
Theorem setParams_calls (fs : filesystem) (values : list Param)
    (b b' : Binder.t) :
  Binder.setParams fs values b = (Ok tt, b') ->
  st_log (Binder.stmnt b')
  = st_log (Binder.stmnt b) ++ call_reset :: calls_from fs 1 values
  /\ Binder.bindPosn b' = Z.of_nat (length values)
  /\ st_busy (Binder.stmnt b') = false
  /\ st_row (Binder.stmnt b') = None
  /\ st_script (Binder.stmnt b') = st_script (Binder.stmnt b)
  /\ st_names (Binder.stmnt b') = st_names (Binder.stmnt b).
Proof. exact (setParams_effect fs values b b'). Qed.

Lemma setParams_calls_witness :
  exists b',
    Binder.setParams example_fs
      [ParamString bytes_with_zero; ParamOther] (Binder.mk 0 example_stmt)
    = (Ok tt, b')
    /\ st_log (Binder.stmnt b')
       = [call_reset; call_bind_blob 1 bytes_with_zero 3].
Proof.
  eexists. split; [vm_compute; reflexivity |].
  match goal with
  | |- st_log (Binder.stmnt ?b2) = _ =>
      exact (proj1 (setParams_calls example_fs
                      [ParamString bytes_with_zero; ParamOther]
                      (Binder.mk 0 example_stmt) b2 eq_refl))
  end.
Defined.

(** When the statement's last step failed, [setParams] with the right
    number of values fails at the reset, with the text the engine has for
    that step's code, before any bind and with every slot as it was; the
    reset has happened all the same, so the same call made again, with
    values that are handed to the engine as they are and are within its
    length limit, returns. *)
Theorem setParams_reset_error (fs : filesystem) (values : list Param)
    (b : Binder.t) :
  Z.of_nat (length values) = sqlite3_bind_parameter_count (Binder.stmnt b) ->
  st_reset_rc (Binder.stmnt b) <> 0 ->
  let b1 := snd (Binder.setParams fs values b) in
  fst (Binder.setParams fs values b)
  = Throw (runtime_error
             ("Binder::reset error: "
              +:+ fixNullStr (lib_errstr (st_library (Binder.stmnt b))
                                         (st_reset_rc (Binder.stmnt b)))))
  /\ st_slots (Binder.stmnt b1) = st_slots (Binder.stmnt b)
  /\ st_log (Binder.stmnt b1) = st_log (Binder.stmnt b) ++ [call_reset]
  /\ Binder.bindPosn b1 = Binder.bindPosn b
  /\ (Forall (bindable fs) values ->
      Forall (within_limit (lib_limit_length (st_library (Binder.stmnt b))) fs)
             values ->
      exists b2, Binder.setParams fs values b1 = (Ok tt, b2)).
Proof.
  intros Hcount Hrc b1. subst b1.
  assert (E : Binder.setParams fs values b
              = (Throw (runtime_error
                          ("Binder::reset error: "
                           +:+ fixNullStr (lib_errstr (st_library (Binder.stmnt b))
                                                      (st_reset_rc (Binder.stmnt b))))),
                 Binder.mk (Binder.bindPosn b) (snd (sqlite3_reset (Binder.stmnt b))))).
  { unfold_binder. simpl. rewrite Hcount, Z.eqb_refl. simpl.
    apply Z.eqb_neq in Hrc. rewrite Hrc. reflexivity. }
  rewrite E. simpl. repeat split; auto.
  intros Hall Hlim. apply setParams_succeeds; auto.
Qed.

Lemma setParams_reset_error_witness :
  fst (Binder.setParams example_fs [ParamInt 3; ParamInt 4] (Binder.mk 0 failed_stmt))
  = Throw (runtime_error "Binder::reset error: constraint failed")
  /\ exists b2,
       Binder.setParams example_fs [ParamInt 3; ParamInt 4]
         (snd (Binder.setParams example_fs [ParamInt 3; ParamInt 4]
                 (Binder.mk 0 failed_stmt)))
       = (Ok tt, b2).
Proof.
  destruct (setParams_reset_error example_fs [ParamInt 3; ParamInt 4]
              (Binder.mk 0 failed_stmt) eq_refl ltac:(simpl; discriminate))
    as (H1 & _ & _ & _ & H2).
  split; [exact H1 |]. apply H2; repeat constructor.
Defined.

(** ** [execute]: binding, then the first step *)





(** ** Taking every row *)

Lemma map_nth_zip {A B C : Type} (g : B -> C) (d : A) (e : B)
    (names : list A) (cells : list B) :
  length names = length cells ->
  map (fun i => (nth i names d, g (nth i cells e))) (seq 0 (length cells))
  = zip_with (fun n c => (n, g c)) names cells.
Proof.
  revert cells. induction names as [| n names IH]; intros [| c cells] Hlen;
    simpl in *; try discriminate; [reflexivity |].
  f_equal. rewrite <- seq_shift, map_map. apply IH. now injection Hlen.
Qed.

Lemma rendered_row_render st cells :
  st_row st = Some cells -> length cells = length (st_names st) ->
  rendered_row st = render (st_names st) cells.
Proof.
  intros Hrow Hlen. unfold rendered_row, render, current_cells. rewrite Hrow.
  now apply map_nth_zip.
Qed.

Lemma fetch_all_exhausted fuel rs :
  Resultset.hasRow rs = false -> fetch_all fuel rs = (Ok [], rs).
Proof.
  intros H. destruct fuel; [reflexivity |]. simpl.
  unfold Resultset.row. now rewrite H.
Qed.

Lemma fetch_all_from_row rows rest :
  forall r0 rs fuel,
    cursor_ok rs ->
    Resultset.hasRow rs = true ->
    st_row (Resultset.stmnt rs) = Some r0 ->
    st_script (Resultset.stmnt rs) = map OutRow rows ++ OutDone :: rest ->
    (length rows + 1 < fuel)%nat ->
    exists rs',
      fetch_all fuel rs
      = (Ok (map (render (st_names (Resultset.stmnt rs))) (r0 :: rows)), rs')
      /\ Resultset.hasRow rs' = false
      /\ st_script (Resultset.stmnt rs') = rest
      /\ st_log (Resultset.stmnt rs')
         = st_log (Resultset.stmnt rs) ++ repeat call_step (S (length rows)).
Proof.
  induction rows as [| r1 rows IH]; intros r0 rs fuel Hok Hrow Hcur Hscript Hfuel;
    (destruct fuel as [| fuel]; [lia |]);
    cbn [fetch_all]; rewrite (row_has_row rs Hok Hrow);
    pose proof Hok as ((_ & Hw) & _); rewrite Hcur in Hw;
    rewrite (rendered_row_render _ r0 Hcur Hw);
    destruct Hok as (Hst & Hrest); pose proof (conj Hst Hrest) as Hok;
    destruct (step_next rs Hst) as (_ & Hlog & Hnames & Hscr & _ & Hnext);
    unfold next_outcome in Hnext; rewrite Hscript in Hnext, Hscr; simpl in Hnext, Hscr;
    destruct Hnext as (Hfst & Hh & _ & Hr); rewrite Hfst.
  - rewrite (fetch_all_exhausted fuel _ Hh).
    eexists. split; [reflexivity |]. simpl. auto.
  - assert (Hok1 : cursor_ok (snd (Resultset.step rs)))
      by (apply step_cursor_ok; auto).
    destruct (IH r1 (snd (Resultset.step rs)) fuel Hok1 Hh Hr Hscr ltac:(simpl in Hfuel; lia))
      as (rs' & Hfetch & Hh' & Hs' & Hl').
    rewrite Hfetch, Hnames. exists rs'. split; [reflexivity |].
    split; [exact Hh' |]. split; [exact Hs' |].
    rewrite Hl', Hlog, <- app_assoc. reflexivity.
Qed.

(** A cursor over a statement that will yield the rows [rows] and then
    report done hands them out through [row()] one by one, in order, each
    under the column names, and then answers "no value": the caller's loop
    collects exactly those rows.  The statement was stepped once per row and
    once more for the end; after that, asking again returns nothing and
    steps no further. *)
Theorem fetch_all_yields_rows (st : sqlite3_stmt) (rows : list (list Cell))
    (rest : list StepOutcome) (rs : Resultset.t) (fuel : nat) :
  stmt_ok st ->
  st_script st = map OutRow rows ++ OutDone :: rest ->
  Resultset.new st = Ok rs ->
  (length rows < fuel)%nat ->
  exists rs',
    fetch_all fuel rs = (Ok (map (render (st_names st)) rows), rs')
    /\ Resultset.empty rs' = true
    /\ st_script (Resultset.stmnt rs') = rest
    /\ st_log (Resultset.stmnt rs')
       = st_log st ++ repeat call_step (S (length rows))
    /\ forall k, fetch_all k rs' = (Ok [], rs').
Proof.
  intros Hst Hscript Hnew Hfuel.
  destruct (new_cursor_ok st rs Hst Hnew) as (Hok & _ & Hstmt & Hh).
  assert (Hnames : st_names (Resultset.stmnt rs) = st_names st).
  { rewrite Hstmt. unfold sqlite3_step.
    destruct (st_script st) as [| [c | | c] r]; reflexivity. }
  assert (Hlog : st_log (Resultset.stmnt rs) = st_log st ++ [call_step]).
  { rewrite Hstmt. unfold sqlite3_step, logged.
    destruct (st_script st) as [| [c | | c] r]; reflexivity. }
  unfold next_outcome in Hh. rewrite Hscript in Hh.
  destruct rows as [| r0 rows]; simpl in Hh.
  - exists rs. rewrite (fetch_all_exhausted fuel rs Hh).
    unfold Resultset.empty. rewrite Hh, Hlog, Hstmt.
    unfold sqlite3_step. rewrite Hscript. simpl.
    repeat split; auto. intros k. now apply fetch_all_exhausted.
  - assert (Hcur : st_row (Resultset.stmnt rs) = Some r0
                   /\ st_script (Resultset.stmnt rs)
                      = map OutRow rows ++ OutDone :: rest).
    { rewrite Hstmt. unfold sqlite3_step. rewrite Hscript. simpl. auto. }
    destruct Hcur as [Hcur Hscr].
    destruct (fetch_all_from_row rows rest r0 rs fuel Hok Hh Hcur Hscr
                ltac:(simpl in Hfuel; lia))
      as (rs' & Hfetch & Hh' & Hs' & Hl').
    exists rs'. rewrite Hfetch, Hnames. unfold Resultset.empty. rewrite Hh'.
    split; [reflexivity |]. split; [reflexivity |]. split; [exact Hs' |].
    split.
    + rewrite Hl', Hlog, <- app_assoc. reflexivity.
    + intros k. now apply fetch_all_exhausted.
Qed.

Lemma fetch_all_yields_rows_witness :
  exists rs',
    fetch_all 5 example_cursor
    = (Ok [[("id", "7"); ("name", "ann")]; [("id", ""); ("name", "bob")]]%string, rs')
    /\ Resultset.empty rs' = true.
Proof.
  destruct (fetch_all_yields_rows example_stmt
              [[int_cell 7; text_cell "ann"]; [CellNull; text_cell "bob"]] []
              example_cursor 5 example_stmt_ok eq_refl eq_refl ltac:(simpl; lia))
    as (rs' & H1 & H2 & _).
  exists rs'. split; [exact H1 | exact H2].
Defined.

(** ** Rows as fields and as strings *)

(** What [row()] and [rowS()] return for the same row agree: the strings
    are the values of the fields, in order, the field names are the
    statement's column names, and both leave the cursor in the same state. *)
Theorem rowS_is_values_of_row (rs : Resultset.t) :
  cursor_ok rs ->
  Resultset.hasRow rs = true ->
  forall r s rs1 rs2,
    Resultset.row rs = (Ok (Some r), rs1) ->
    Resultset.rowS rs = (Ok (Some s), rs2) ->
    s = map snd r
    /\ map fst r = st_names (Resultset.stmnt rs)
    /\ rs1 = rs2.
Proof.
  intros Hok Hrow r s rs1 rs2.
  rewrite (row_has_row rs Hok Hrow), (rowS_has_row rs Hok Hrow).
  destruct (countData_columns rs Hok Hrow) as [_ Hcells].
  destruct Hok as (_ & Hlen & _).
  destruct (fst (Resultset.step rs)) as [[] | e]; [| discriminate].
  intros H1 H2. inversion H1; subst; clear H1. inversion H2; subst; clear H2.
  unfold rendered_row, rendered_rowS. rewrite !map_map. simpl.
  split; [| split; [| reflexivity]].
  - symmetry. apply map_nth_seq.
  - rewrite Hcells, Hlen.
    rewrite (map_nth_seq (fun n : string => n) EmptyString). apply map_id.
Qed.

Lemma rowS_is_values_of_row_witness :
  Resultset.row example_cursor
  = (Ok (Some [("id", "7"); ("name", "ann")]%string), snd (Resultset.step example_cursor))
  /\ Resultset.rowS example_cursor
     = (Ok (Some ["7"; "ann"]%string), snd (Resultset.step example_cursor))
  /\ ["7"; "ann"]%string = map snd [("id", "7"); ("name", "ann")]%string.
Proof.
  split; [reflexivity |]. split; [reflexivity |].
  exact (proj1 (rowS_is_values_of_row example_cursor example_cursor_ok eq_refl
                  [("id", "7"); ("name", "ann")]%string ["7"; "ann"]%string
                  (snd (Resultset.step example_cursor))
                  (snd (Resultset.step example_cursor)) eq_refl eq_refl)).
Defined.

(** ** Access by column name *)

Lemma posn_from_spec st name cols :
  forall k,
    0 <= k ->
    (forall (i : nat) c, cols !! i = Some c -> ResultColumn.posn c = k + Z.of_nat i) ->
    match Resultset.posn_from st cols name k with
    | Some p =>
        exists i : nat,
          p = k + Z.of_nat i /\ (i < length cols)%nat
          /\ sqlite3_column_name st p = name
          /\ forall j : nat, (j < i)%nat ->
               sqlite3_column_name st (k + Z.of_nat j) <> name
    | None =>
        forall i : nat, (i < length cols)%nat ->
          sqlite3_column_name st (k + Z.of_nat i) <> name
    end.
Proof.
  induction cols as [| c cols IH]; intros k Hk Hposn; simpl.
  - intros i Hi. lia.
  - assert (Hc : ResultColumn.posn c = k).
    { rewrite (Hposn 0%nat c eq_refl). lia. }
    unfold ResultColumn.name. rewrite Hc.
    destruct (String.eqb (sqlite3_column_name st k) name) eqn:Heq.
    + apply String.eqb_eq in Heq. exists 0%nat.
      split; [lia |]. split; [simpl; lia |]. split; [exact Heq |].
      intros j Hj. lia.
    + apply String.eqb_neq in Heq.
      specialize (IH (k + 1) ltac:(lia)).
      assert (Hposn' : forall (i : nat) c', cols !! i = Some c' ->
                ResultColumn.posn c' = k + 1 + Z.of_nat i).
      { intros i c' Hi. rewrite (Hposn (S i) c' Hi). lia. }
      specialize (IH Hposn').
      destruct (Resultset.posn_from st cols name (k + 1)) as [p |].
      * destruct IH as (i & Hp & Hi & Hname & Hfirst).
        exists (S i). split; [lia |]. split; [simpl; lia |].
        split; [exact Hname |].
        intros j Hj. destruct j as [| j].
        -- replace (k + Z.of_nat 0) with k by lia. exact Heq.
        -- replace (k + Z.of_nat (S j)) with (k + 1 + Z.of_nat j) by lia.
           apply Hfirst. lia.
      * intros i Hi. destruct i as [| i].
        -- replace (k + Z.of_nat 0) with k by lia. exact Heq.
        -- replace (k + Z.of_nat (S i)) with (k + 1 + Z.of_nat i) by lia.
           apply IH. lia.
Qed.

(** The lookup finds the first column carrying the name, and fails exactly
    when no column carries it. *)
Lemma posn_cases rs name :
  cursor_ok rs ->
  (In name (st_names (Resultset.stmnt rs)) ->
   exists i : nat,
     (i < length (Resultset.columns rs))%nat
     /\ nth i (st_names (Resultset.stmnt rs)) EmptyString = name
     /\ (forall j : nat, (j < i)%nat ->
           nth j (st_names (Resultset.stmnt rs)) EmptyString <> name)
     /\ Resultset.posn name rs = Ok (Z.of_nat i))
  /\ (~ In name (st_names (Resultset.stmnt rs)) ->
      Resultset.posn name rs = Throw (runtime_error (name +:+ " col name not found"))).
Proof.
  intros (_ & Hlen & Hposn & _).
  pose proof (posn_from_spec (Resultset.stmnt rs) name (Resultset.columns rs) 0
                ltac:(lia) ltac:(intros i c Hc; rewrite (Hposn i c Hc); lia)) as Hspec.
  unfold Resultset.posn.
  destruct (Resultset.posn_from (Resultset.stmnt rs) (Resultset.columns rs) name 0)
    as [p |].
  - destruct Hspec as (i & Hp & Hi & Hname & Hfirst).
    rewrite Z.add_0_l in Hp. subst p.
    rewrite column_name_nth in Hname. split.
    + intros _. exists i. split; [exact Hi |]. split; [exact Hname |].
      split; [| reflexivity].
      intros j Hj. specialize (Hfirst j Hj). rewrite Z.add_0_l in Hfirst.
      now rewrite column_name_nth in Hfirst.
    + intros Hnot. exfalso. apply Hnot. rewrite <- Hname. apply nth_In. lia.
  - split; [| reflexivity].
    intros Hin. exfalso.
    destruct (In_nth _ _ EmptyString Hin) as (i & Hi & Hname).
    specialize (Hspec i ltac:(lia)). rewrite Z.add_0_l in Hspec.
    rewrite column_name_nth in Hspec. contradiction.
Qed.

(** With a row available, access by name reads the first column that
    carries the name (so of two columns with one name the later one cannot
    be reached by name) and returns its name and bytes, the same field the
    positional accessor returns for that index; a name no column carries
    makes every named accessor throw [ColumnNotFound]. *)
Theorem named_access_first_match (rs : Resultset.t) (name : SqlColName) :
  cursor_ok rs ->
  Resultset.hasRow rs = true ->
  (In name (st_names (Resultset.stmnt rs)) ->
   exists i : nat,
     (i < length (st_names (Resultset.stmnt rs)))%nat
     /\ nth i (st_names (Resultset.stmnt rs)) EmptyString = name
     /\ (forall j : nat, (j < i)%nat ->
           nth j (st_names (Resultset.stmnt rs)) EmptyString <> name)
     /\ Resultset.field_by_name name rs
        = Ok (name, cell_bytes (nth i (current_cells (Resultset.stmnt rs)) CellNull))
     /\ Resultset.field_by_name name rs = Resultset.field (Z.of_nat i) rs
     /\ Resultset.fieldS_by_name name rs
        = Ok (cell_bytes (nth i (current_cells (Resultset.stmnt rs)) CellNull)))
  /\ (~ In name (st_names (Resultset.stmnt rs)) ->
      exists e,
        ColumnNotFound name e
        /\ Resultset.field_by_name name rs = Throw e
        /\ Resultset.fieldS_by_name name rs = Throw e
        /\ forall T, Resultset.fieldT_by_name T name rs = Throw e).
Proof.
  intros Hok Hrow. destruct (posn_cases rs name Hok) as [Hin Hout]. split.
  - intros H. destruct (Hin H) as (i & Hi & Hname & Hfirst & Hposn).
    exists i.
    assert (Hfield : Resultset.field_by_name name rs = Resultset.field (Z.of_nat i) rs).
    { unfold Resultset.field_by_name, Resultset.field. rewrite Hposn, Hrow. reflexivity. }
    split; [destruct Hok as (_ & Hlen & _); lia |].
    split; [exact Hname |]. split; [exact Hfirst |].
    rewrite Hfield, (field_in_range rs i Hok Hrow Hi), Hname.
    split; [reflexivity |]. split; [reflexivity |].
    unfold Resultset.fieldS_by_name. rewrite Hposn.
    apply (fieldS_in_range rs i Hok Hrow Hi).
  - intros H. specialize (Hout H). eexists. split; [reflexivity |].
    unfold Resultset.field_by_name, Resultset.fieldS_by_name, Resultset.fieldT_by_name.
    rewrite Hout. auto.
Qed.

Lemma named_access_first_match_witness :
  (exists i : nat,
      (i < 2)%nat
      /\ Resultset.field_by_name "name" example_cursor
         = Ok ("name"%string,
               cell_bytes (nth i (current_cells (Resultset.stmnt example_cursor)) CellNull)))
  /\ exists e,
       ColumnNotFound "age" e
       /\ Resultset.field_by_name "age" example_cursor = Throw e.
Proof.
  destruct (named_access_first_match example_cursor "name" example_cursor_ok eq_refl)
    as [Hin _].
  destruct (named_access_first_match example_cursor "age" example_cursor_ok eq_refl)
    as [_ Hout].
  split.
  - destruct (Hin ltac:(simpl; auto)) as (i & Hi & _ & _ & Hf & _).
    exists i. split; [exact Hi | exact Hf].
  - destruct Hout as (e & He & Hf & _).
    + simpl. intros [H | [H | []]]; discriminate.
    + exists e. split; [exact He | exact Hf].
Defined.

(** On an exhausted cursor the string and typed accessors by name look the
    name up before they look at the cursor: a selected column's name yields
    the empty string and "no value", a name no column carries throws
    [ColumnNotFound] all the same. *)
Theorem named_access_exhausted (rs : Resultset.t) (name : SqlColName) :
  cursor_ok rs ->
  Resultset.hasRow rs = false ->
  (In name (st_names (Resultset.stmnt rs)) ->
   Resultset.fieldS_by_name name rs = Ok EmptyString
   /\ forall T, Resultset.fieldT_by_name T name rs = Ok None)
  /\ (~ In name (st_names (Resultset.stmnt rs)) ->
      exists e,
        ColumnNotFound name e
        /\ Resultset.fieldS_by_name name rs = Throw e
        /\ forall T, Resultset.fieldT_by_name T name rs = Throw e).
Proof.
  intros Hok Hrow. destruct (posn_cases rs name Hok) as [Hin Hout]. split.
  - intros H. destruct (Hin H) as (i & _ & _ & _ & Hposn).
    unfold Resultset.fieldS_by_name, Resultset.fieldT_by_name,
      Resultset.fieldS, Resultset.fieldT_at.
    rewrite Hposn, Hrow. auto.
  - intros H. specialize (Hout H). eexists. split; [reflexivity |].
    unfold Resultset.fieldS_by_name, Resultset.fieldT_by_name.
    rewrite Hout. auto.
Qed.

Lemma named_access_exhausted_witness :
  Resultset.fieldS_by_name "id" exhausted_cursor = Ok EmptyString
  /\ exists e,
       ColumnNotFound "age" e
       /\ Resultset.fieldS_by_name "age" exhausted_cursor = Throw e.
Proof.
  destruct (named_access_exhausted exhausted_cursor "id" exhausted_cursor_ok eq_refl)
    as [Hin _].
  destruct (named_access_exhausted exhausted_cursor "age" exhausted_cursor_ok eq_refl)
    as [_ Hout].
  split.
  - exact (proj1 (Hin ltac:(simpl; auto))).
  - destruct Hout as (e & He & Hf & _).
    + simpl. intros [H | [H | []]]; discriminate.
    + exists e. split; [exact He | exact Hf].
Defined.

(** ** Typed reads on the row the cursor was constructed on *)

Lemma fieldT_first_row st rs T (i : nat) :
  stmt_ok st -> Resultset.new st = Ok rs -> Resultset.hasRow rs = true ->
  (i < length (Resultset.columns rs))%nat ->
  Resultset.fieldT_at T (Z.of_nat i) rs
  = match nth i (current_cells (Resultset.stmnt rs)) CellNull, T with
    | CellData _ _ _ _ _, T_other =>
        Throw (runtime_error
                 ("Read: Unrecognised read type requested" +:+ " for `"
                  +:+ nth i (st_names (Resultset.stmnt rs)) EmptyString +:+ "`"))
    | c, _ => Ok (typed_value T c)
    end.
Proof.
  intros Hst Hnew Hrow Hi.
  unfold Resultset.new in Hnew.
  destruct (Resultset.step (Resultset.mk st false 0 [])) as [[[] | e] rs0] eqn:Hstep;
    [| discriminate].
  inversion Hnew; subst; clear Hnew. simpl in *.
  unfold Resultset.fieldT_at. simpl. rewrite Hrow. simpl.
  destruct (lookup_lt_is_Some_2 _ i Hi) as [c Hc].
  rewrite (at_in_range _ _ _ Hc).
  rewrite list_lookup_fmap in Hc.
  destruct (upto (Resultset.countColumns rs0) !! i) as [j |] eqn:Hj; [| discriminate].
  unfold upto in Hj. apply lookup_seq in Hj. destruct Hj as [Hj _]. simpl in Hj, Hc.
  inversion Hc; subst; clear Hc.
  unfold ResultColumn.read, ResultColumn.make, ResultColumn.name,
    ResultColumn.readBlob, ResultColumn.readText. simpl.
  unfold sqlite3_column_type, sqlite3_column_int, sqlite3_column_int64,
    sqlite3_column_double, sqlite3_column_blob, sqlite3_column_text,
    sqlite3_column_bytes, string_of_buffer.
  rewrite column_cell_nth, column_name_nth.
  destruct (nth i (current_cells (Resultset.stmnt rs0)) CellNull)
    as [| cls a b' d bytes]; [now destruct T |].
  rewrite Nat2Z.id, take_bytes_all.
  destruct cls, T; reflexivity.
Qed.

(** On the row the cursor was constructed on, a typed read of a column
    returns what the engine's reader for the requested type returns; the
    string read returns every byte of the cell, text or blob, embedded zero
    bytes included; a NULL cell reads as "no value" for every requested
    type, an unknown one too; an unknown type on a cell that is not NULL
    throws an error that names the column. *)
Theorem typed_read_first_row (st : sqlite3_stmt) (rs : Resultset.t) (i : nat) :
  stmt_ok st -> Resultset.new st = Ok rs -> Resultset.hasRow rs = true ->
  (i < length (st_names (Resultset.stmnt rs)))%nat ->
  match nth i (current_cells (Resultset.stmnt rs)) CellNull with
  | CellNull => forall T, Resultset.fieldT_at T (Z.of_nat i) rs = Ok None
  | CellData cls a b d bytes =>
      Resultset.fieldT_at T_int (Z.of_nat i) rs = Ok (Some (V_int a))
      /\ Resultset.fieldT_at T_long_long (Z.of_nat i) rs = Ok (Some (V_long_long b))
      /\ Resultset.fieldT_at T_double (Z.of_nat i) rs = Ok (Some (V_double d))
      /\ Resultset.fieldT_at T_string (Z.of_nat i) rs = Ok (Some (V_string bytes))
      /\ Resultset.fieldT_at T_other (Z.of_nat i) rs
         = Throw (runtime_error
                    ("Read: Unrecognised read type requested for `"
                     +:+ nth i (st_names (Resultset.stmnt rs)) EmptyString +:+ "`"))
  end.
Proof.
  intros Hst Hnew Hrow Hi.
  destruct (new_cursor_ok st rs Hst Hnew) as ((_ & Hlen & _) & _).
  rewrite <- Hlen in Hi.
  pose proof (fun T => fieldT_first_row st rs T i Hst Hnew Hrow Hi) as H.
  destruct (nth i (current_cells (Resultset.stmnt rs)) CellNull)
    as [| cls a b d bytes].
  - intros T. rewrite H. now destruct T.
  - repeat split; rewrite H; reflexivity.
Qed.

Lemma typed_read_first_row_witness :
  Resultset.fieldT_at T_int 0 example_cursor = Ok (Some (V_int 7))
  /\ Resultset.fieldT_at T_string 1 example_cursor = Ok (Some (V_string "ann"))
  /\ Resultset.fieldT_at T_other 1 example_cursor
     = Throw (runtime_error "Read: Unrecognised read type requested for `name`").
Proof.
  pose proof (typed_read_first_row example_stmt example_cursor 0 example_stmt_ok
                eq_refl eq_refl ltac:(simpl; lia)) as H0.
  pose proof (typed_read_first_row example_stmt example_cursor 1 example_stmt_ok
                eq_refl eq_refl ltac:(simpl; lia)) as H1.
  simpl in H0, H1.
  destruct H0 as (Hint & _). destruct H1 as (_ & _ & _ & Hstr & Hother).
  split; [exact Hint |]. split; [exact Hstr | exact Hother].
Defined.

Lemma reads_at_first_row st rs :
  stmt_ok st -> Resultset.new st = Ok rs -> Resultset.hasRow rs = true ->
  forall Ts order (k : nat),
    Forall (fun i => supported (nth i Ts T_other)) order ->
    (k + length order <= length (Resultset.columns rs))%nat ->
    reads_at rs (Z.of_nat k) Ts order
    = Ok (zip_with (fun i c => (i, typed_value (nth i Ts T_other) c)) order
                   (drop k (current_cells (Resultset.stmnt rs)))).
Proof.
  intros Hst Hnew Hrow Ts.
  destruct (new_cursor_ok st rs Hst Hnew) as (Hok & _).
  destruct (countData_columns rs Hok Hrow) as [_ Hcells].
  induction order as [| i rest IH]; intros k Hsup Hk; [reflexivity |].
  simpl length in Hk. inversion Hsup as [| i' rest' HT Hrest]; subst.
  cbn [reads_at].
  rewrite (fieldT_first_row st rs (nth i Ts T_other) k Hst Hnew Hrow ltac:(lia)).
  destruct (lookup_lt_is_Some_2 (current_cells (Resultset.stmnt rs)) k ltac:(lia))
    as [c Hc].
  rewrite (drop_S _ c k Hc), nth_lookup, Hc. simpl.
  replace (Z.of_nat k + 1) with (Z.of_nat (S k)) by lia.
  rewrite (IH (S k) Hrest ltac:(lia)).
  destruct c as [| cls a b d bytes]; [reflexivity |].
  destruct (nth i Ts T_other); try reflexivity. now contradiction HT.
Qed.

(** In the values of arguments evaluated once each, the value of argument
    [i] is the one read when [i] had its turn. *)
Lemma find_argument {B : Type} (g : nat -> B -> option ReadValue) (i : nat) (c : B) :
  forall order cells (m : nat),
    NoDup order ->
    order !! m = Some i ->
    cells !! m = Some c ->
    find (fun a => Nat.eqb (fst a) i) (zip_with (fun j x => (j, g j x)) order cells)
    = Some (i, g i c).
Proof.
  induction order as [| j rest IH]; intros cells m Hnd Hm Hc; [discriminate |].
  destruct cells as [| c0 cells]; [now destruct m |].
  destruct m as [| m]; simpl in Hm, Hc.
  - inversion Hm; inversion Hc; subst. simpl. now rewrite Nat.eqb_refl.
  - simpl. inversion Hnd as [| j' rest' Hnotin Hnd']; subst.
    destruct (Nat.eqb j i) eqn:Hji.
    + apply Nat.eqb_eq in Hji. subst j. exfalso. apply Hnotin.
      eapply list_elem_of_lookup_2. exact Hm.
    + now apply (IH cells m).
Qed.

Lemma make_tuple_lookup {B : Type} (g : nat -> B -> option ReadValue)
    (n : nat) order (cells : list B) (m i : nat) (c : B) :
  NoDup order ->
  order !! m = Some i ->
  cells !! m = Some c ->
  (i < n)%nat ->
  Resultset.make_tuple n (zip_with (fun j x => (j, g j x)) order cells) !! i
  = Some (g i c).
Proof.
  intros Hnd Hm Hc Hi. unfold Resultset.make_tuple.
  rewrite list_lookup_fmap, (lookup_seq_lt 0 n i Hi). simpl.
  now rewrite (find_argument g i c order cells m Hnd Hm Hc).
Qed.

Lemma make_tuple_length n args : length (Resultset.make_tuple n args) = n.
Proof. unfold Resultset.make_tuple. now rewrite length_map, length_seq. Qed.

(** On a freshly constructed cursor with a row, [rowT] with as many
    supported types as there are columns returns a tuple and steps the
    statement once; an engine error at that step surfaces as the step
    error.  Which column an element of the tuple is read from is decided by
    the order in which the compiler evaluates the arguments of
    [std::make_tuple]: the argument evaluated [m]-th reads column [m], with
    the engine's reader for its own type, "no value" for a NULL cell.  So
    element [i] is read from column [i] when the arguments are evaluated
    left to right, and from column [n - 1 - i] when they are evaluated right
    to left. *)
Theorem rowT_first_row (st : sqlite3_stmt) (rs : Resultset.t)
    (Ts : list ReadType) (order : list nat) :
  stmt_ok st -> Resultset.new st = Ok rs -> Resultset.hasRow rs = true ->
  length Ts = length (st_names (Resultset.stmnt rs)) ->
  Forall supported Ts ->
  evaluation_order (length Ts) order ->
  match next_outcome (Resultset.stmnt rs) with
  | OutError code =>
      fst (Resultset.rowT Ts order rs)
      = Throw (runtime_error ("Resultset::step error: " +:+ to_string code))
  | _ =>
      exists tup,
        fst (Resultset.rowT Ts order rs) = Ok (Some tup)
        /\ length tup = length Ts
        /\ (forall (m i : nat) T c,
              order !! m = Some i ->
              Ts !! i = Some T ->
              current_cells (Resultset.stmnt rs) !! m = Some c ->
              tup !! i = Some (typed_value T c))
        /\ (order = left_to_right (length Ts) ->
            tup = zip_with typed_value Ts (current_cells (Resultset.stmnt rs)))
        /\ (order = right_to_left (length Ts) ->
            tup = zip_with typed_value Ts
                    (reverse (current_cells (Resultset.stmnt rs))))
  end
  /\ st_log (Resultset.stmnt (snd (Resultset.rowT Ts order rs)))
     = st_log (Resultset.stmnt rs) ++ [call_step].
Proof.
  intros Hst Hnew Hrow Hlen Hsup Hperm.
  destruct (new_cursor_ok st rs Hst Hnew) as (Hok & Hposn & _).
  destruct (countData_columns rs Hok Hrow) as [Hcount Hcells].
  pose proof Hok as (Hstok & Hcols & _).
  assert (Hcd : Resultset.countData rs = Z.of_nat (length Ts)) by (rewrite Hcount; lia).
  pose proof (evaluation_order_length _ _ Hperm) as Holen.
  pose proof (reads_at_first_row st rs Hst Hnew Hrow Ts order 0
                (evaluation_order_supported Ts order Hperm Hsup) ltac:(lia))
    as Hreads.
  change (Z.of_nat 0) with 0 in Hreads. rewrite drop_0 in Hreads.
  destruct (step_next rs Hstok) as (_ & Hlog & _ & _ & _ & Hnext).
  assert (Hnd : NoDup order).
  { unfold evaluation_order in Hperm. rewrite Hperm. apply NoDup_seq. }
  set (cells := current_cells (Resultset.stmnt rs)) in *.
  set (tup := Resultset.make_tuple (length Ts)
                (zip_with (fun i c => (i, typed_value (nth i Ts T_other) c))
                          order cells)).
  assert (Hcl : length cells = length Ts) by lia.
  assert (Helem : forall (m i : nat) T c,
            order !! m = Some i -> Ts !! i = Some T -> cells !! m = Some c ->
            tup !! i = Some (typed_value T c)).
  { intros m i T c Hm HT Hc. unfold tup.
    rewrite (make_tuple_lookup (fun j x => typed_value (nth j Ts T_other) x)
               (length Ts) order cells m i c Hnd Hm Hc).
    - now rewrite (nth_lookup_Some _ _ _ _ HT).
    - eapply lookup_lt_Some. exact HT. }
  assert (Hiff : forall other : list (option ReadValue),
            length other = length Ts ->
            (forall i : nat, (i < length Ts)%nat -> tup !! i = other !! i) ->
            tup = other).
  { intros other Hol Hi. apply list_eq. intros i.
    destruct (Nat.lt_ge_cases i (length Ts)) as [Hlt | Hge]; [now apply Hi |].
    rewrite !lookup_ge_None_2; [reflexivity | lia |].
    unfold tup. rewrite make_tuple_length. lia. }
  assert (Htup : exists tup0,
            Ok (Some tup) = Ok (Some tup0)
            /\ length tup0 = length Ts
            /\ (forall (m i : nat) T c,
                  order !! m = Some i -> Ts !! i = Some T -> cells !! m = Some c ->
                  tup0 !! i = Some (typed_value T c))
            /\ (order = left_to_right (length Ts) ->
                tup0 = zip_with typed_value Ts cells)
            /\ (order = right_to_left (length Ts) ->
                tup0 = zip_with typed_value Ts (reverse cells))).
  { exists tup. split; [reflexivity |]. split; [apply make_tuple_length |].
    split; [exact Helem |]. split.
    - intros Horder. apply Hiff; [rewrite length_zip_with_l_eq; lia |].
      intros i Hi.
      destruct (lookup_lt_is_Some_2 Ts i Hi) as [T HT].
      destruct (lookup_lt_is_Some_2 cells i ltac:(lia)) as [c Hc].
      rewrite lookup_zip_with, HT, Hc. simpl.
      apply (Helem i i T c); auto.
      rewrite Horder. unfold left_to_right. now apply lookup_seq_lt.
    - intros Horder. apply Hiff.
      { rewrite length_zip_with_l_eq; [reflexivity | rewrite length_reverse; lia]. }
      intros i Hi.
      destruct (lookup_lt_is_Some_2 Ts i Hi) as [T HT].
      destruct (lookup_lt_is_Some_2 cells (length Ts - S i) ltac:(lia)) as [c Hc].
      assert (Hrc : reverse cells !! i = Some c).
      { apply reverse_lookup_Some. split; [| lia].
        rewrite Hcl. exact Hc. }
      rewrite lookup_zip_with, HT, Hrc. simpl.
      apply (Helem (length Ts - S i)%nat i T c); auto.
      rewrite Horder. unfold right_to_left.
      apply reverse_lookup_Some. rewrite length_seq. split; [| lia].
      replace (length Ts - S (length Ts - S i))%nat with i by lia.
      now apply lookup_seq_lt. }
  split.
  - rewrite (rowT_fresh Ts order rs Hrow Hposn Hcd), Hreads. fold tup.
    destruct (next_outcome (Resultset.stmnt rs)); destruct Hnext as (Hr & _);
      rewrite Hr; [exact Htup | exact Htup | reflexivity].
  - rewrite (rowT_has_row Ts order rs Hrow Hcd), Hposn, Hreads.
    pose proof (readTuple_frame Ts order rs) as (Hs & _).
    set (rs1 := snd (Resultset.readTuple Ts order rs)) in *.
    simpl. destruct Hok as (Hstok' & _).
    assert (Hst1 : stmt_ok (Resultset.stmnt rs1)) by (rewrite Hs; exact Hstok).
    destruct (step_next rs1 Hst1) as (_ & Hlog1 & _).
    rewrite Hlog1, Hs. reflexivity.
Qed.

Lemma rowT_first_row_witness :
  fst (Resultset.rowT [T_long_long; T_string] (left_to_right 2) example_cursor)
  = Ok (Some [Some (V_long_long 7); Some (V_string "ann")])
  /\ fst (Resultset.rowT [T_long_long; T_string] (right_to_left 2) example_cursor)
     = Ok (Some [Some (V_long_long 0); Some (V_string "7")]).
Proof.
  assert (Hsup : Forall supported [T_long_long; T_string])
    by (repeat constructor; discriminate).
  destruct (rowT_first_row example_stmt example_cursor [T_long_long; T_string]
              (left_to_right 2) example_stmt_ok eq_refl eq_refl eq_refl Hsup
              ltac:(apply Permutation_refl)) as [(t1 & H1 & _ & _ & L1 & _) _].
  destruct (rowT_first_row example_stmt example_cursor [T_long_long; T_string]
              (right_to_left 2) example_stmt_ok eq_refl eq_refl eq_refl Hsup
              ltac:(vm_compute; apply perm_swap)) as [(t2 & H2 & _ & _ & _ & R2) _].
  rewrite (L1 eq_refl) in H1. rewrite (R2 eq_refl) in H2.
  split; [exact H1 | exact H2].
Defined.

(** ** Sequential accessors on an exhausted cursor *)

(** On an exhausted cursor [nextField] and [nextFieldS] never throw: however
    many sequential calls came before, they return the default empty field
    and the empty string, and still advance the column cursor; the typed
    [nextFieldT] has no such guard and throws [std::out_of_range] once the
    column cursor passes the last column. *)
Theorem sequential_access_exhausted (rs : Resultset.t) (calls : list SeqCall) :
  Resultset.hasRow rs = false ->
  let rs1 := run_seq calls rs in
  fst (Resultset.nextField rs1) = Ok default_field
  /\ fst (Resultset.nextFieldS rs1) = Ok EmptyString
  /\ Resultset.columnPosn (snd (Resultset.nextField rs1))
     = Resultset.columnPosn rs + Z.of_nat (length calls) + 1
  /\ (Z.of_nat (length (Resultset.columns rs))
      <= Resultset.columnPosn rs + Z.of_nat (length calls) + 1 ->
      forall T, fst (Resultset.nextFieldT T rs1) = Throw out_of_range).
Proof.
  intros Hrow rs1. subst rs1. rewrite run_seq_state.
  unfold Resultset.nextField, Resultset.nextFieldS, Resultset.nextFieldT,
    Resultset.field, Resultset.fieldS, Resultset.fieldT.
  simpl. rewrite Hrow. simpl. repeat split; auto.
  intros Hpast T. rewrite at_out_of_range by (right; exact Hpast). reflexivity.
Qed.

Lemma sequential_access_exhausted_witness :
  fst (Resultset.nextField (run_seq [seq_nextField; seq_nextFieldS] exhausted_cursor))
  = Ok default_field
  /\ fst (Resultset.nextFieldT T_int
            (run_seq [seq_nextField; seq_nextFieldS] exhausted_cursor))
     = Throw out_of_range.
Proof.
  destruct (sequential_access_exhausted exhausted_cursor
              [seq_nextField; seq_nextFieldS] eq_refl) as (H1 & _ & _ & H2).
  split; [exact H1 |]. apply H2. simpl. lia.
Defined.

(** The string accessors return the value part of what the field accessors
    return, throw what they throw, and move the column cursor alike. *)
Theorem fieldS_is_value_of_field (rs : Resultset.t) (p : Z) :
  Resultset.fieldS p rs
  = match Resultset.field p rs with
    | Ok f => Ok (snd f)
    | Throw e => Throw e
    end
  /\ fst (Resultset.nextFieldS rs)
     = match fst (Resultset.nextField rs) with
       | Ok f => Ok (snd f)
       | Throw e => Throw e
       end
  /\ snd (Resultset.nextFieldS rs) = snd (Resultset.nextField rs).
Proof.
  unfold Resultset.nextFieldS, Resultset.nextField, Resultset.fieldS, Resultset.field.
  simpl. destruct (Resultset.hasRow rs); simpl; [| auto].
  repeat split.
  - destruct (at_ (Resultset.columns rs) p); reflexivity.
  - destruct (at_ (Resultset.columns rs) (Resultset.columnPosn rs + 1)); reflexivity.
Qed.

(** ** The one-shot query is decided by the error message *)

(** [quickQuery] never looks at the result code of [sqlite3_exec]: without
    an error message (a null pointer or an empty string) it returns every
    row the engine handed over and clears the stored message; with one it
    throws that message, stores it, and the rows handed over before the
    error stay in the connection until the next call clears them. *)
Theorem quickQuery_decided_by_message (queryStr : string) (c : Connection.t) :
  let o := next_exec (Connection.sqliteDb c) in
  (fixNullStr (ex_errmsg o) = EmptyString ->
   fst (Connection.quickQuery queryStr c) = Ok (table_of (ex_rows o))
   /\ Connection.errorMsg (snd (Connection.quickQuery queryStr c)) = EmptyString)
  /\ (forall msg,
        ex_errmsg o = Some msg -> msg <> EmptyString ->
        fst (Connection.quickQuery queryStr c)
        = Throw (runtime_error ("Connection::QuickQuery error: " +:+ msg))
        /\ Connection.errorMsg (snd (Connection.quickQuery queryStr c)) = msg
        /\ Connection.results (snd (Connection.quickQuery queryStr c))
           = table_of (ex_rows o)
        /\ forall queryStr',
             Connection.results
               (snd (Connection.quickQuery queryStr'
                       (snd (Connection.quickQuery queryStr c))))
             = table_of (ex_rows (next_exec
                                    (mk_db (tl (db_script (Connection.sqliteDb c))))))).
Proof.
  intros o. rewrite quickQuery_unfold. cbv zeta. fold o. split.
  - intros Hmsg. rewrite Hmsg. simpl. auto.
  - intros msg Hmsg Hne. rewrite Hmsg. simpl.
    apply String.eqb_neq in Hne. rewrite Hne. simpl.
    repeat split. intros q'. rewrite quickQuery_unfold. cbv zeta. simpl.
    destruct (negb _); reflexivity.
Qed.

Lemma quickQuery_decided_by_message_witness :
  fst (Connection.quickQuery "INSERT" example_connection)
  = Throw (runtime_error
             "Connection::QuickQuery error: UNIQUE constraint failed: Test.text_col_key")
  /\ Connection.results (snd (Connection.quickQuery "INSERT" example_connection))
     = [[("changes", "2")]]%string.
Proof.
  destruct (quickQuery_decided_by_message "INSERT" example_connection) as [_ H].
  destruct (H "UNIQUE constraint failed: Test.text_col_key"%string eq_refl
              ltac:(discriminate)) as (H1 & _ & H2 & _).
  split; [exact H1 | exact H2].
Defined.

(** ** Writing a column to a file *)

Lemma column0_buffer st :
  string_of_buffer (sqlite3_column_blob st 0) (sqlite3_column_bytes st 0)
  = cell_bytes (column_cell st 0)
  /\ sqlite3_column_bytes st 0 = Z.of_nat (String.length (cell_bytes (column_cell st 0))).
Proof.
  unfold sqlite3_column_blob, sqlite3_column_text, sqlite3_column_bytes,
    string_of_buffer.
  destruct (column_cell st 0); simpl; [auto |].
  rewrite Nat2Z.id, take_bytes_all. auto.
Qed.

(** [toFile] refuses an existing file unless told to replace it, and then
    touches nothing.  Otherwise it returns the byte count of column 0 of the
    row the statement points at and, when the path can be opened for
    writing, leaves exactly those bytes in the file (an earlier content is
    gone) and every other file as it was; when the path cannot be opened
    the count is returned all the same and nothing is written.  There is no
    check for a current row: on an exhausted cursor the file is written
    empty and zero is returned. *)
Theorem toFile_writes_column0 (fileSpec : string)
    (replace : Resultset.FileReplace) (rs : Resultset.t) (d : disk) :
  let bytes := cell_bytes (column_cell (Resultset.stmnt rs) 0) in
  (is_Some (disk_files d !! fileSpec) -> replace = Resultset.no ->
   Resultset.toFile fileSpec replace rs d
   = (Throw (runtime_error ("File already exists: " +:+ fileSpec)), d))
  /\ (disk_files d !! fileSpec = None \/ replace = Resultset.yes ->
      fst (Resultset.toFile fileSpec replace rs d)
      = Ok (Z.of_nat (String.length bytes))
      /\ (disk_writable d fileSpec = true ->
          disk_files (snd (Resultset.toFile fileSpec replace rs d)) !! fileSpec
          = Some bytes
          /\ forall other, other <> fileSpec ->
               disk_files (snd (Resultset.toFile fileSpec replace rs d)) !! other
               = disk_files d !! other)
      /\ (disk_writable d fileSpec = false ->
          snd (Resultset.toFile fileSpec replace rs d) = d))
  /\ (st_row (Resultset.stmnt rs) = None -> bytes = EmptyString).
Proof.
  intros bytes. subst bytes.
  destruct (column0_buffer (Resultset.stmnt rs)) as [Hbuf Hsize].
  unfold Resultset.toFile. rewrite Hbuf, Hsize. split; [| split].
  - intros [old Hold] Hrep. rewrite Hold, Hrep. reflexivity.
  - intros Hfree.
    assert (Hguard : (match disk_files d !! fileSpec with
                      | Some _ => true | None => false end)
                     && negb (match replace with
                              | Resultset.yes => true | Resultset.no => false end)
                     = false).
    { destruct Hfree as [Hnone | Hyes]; [rewrite Hnone | rewrite Hyes]; simpl; auto.
      now destruct (disk_files d !! fileSpec). }
    rewrite Hguard. simpl. split; [reflexivity |]. split.
    + intros Hw. rewrite Hw. simpl. split.
      * apply lookup_insert_eq.
      * intros other Hne. apply lookup_insert_ne. congruence.
    + intros Hw. rewrite Hw. reflexivity.
  - intros Hnone. unfold column_cell. rewrite Hnone. reflexivity.
Qed.

Lemma toFile_writes_column0_witness :
  Resultset.toFile "/out/old.bin" Resultset.no example_cursor example_disk
  = (Throw (runtime_error "File already exists: /out/old.bin"), example_disk)
  /\ fst (Resultset.toFile "/out/old.bin" Resultset.yes example_cursor example_disk)
     = Ok 1
  /\ disk_files (snd (Resultset.toFile "/out/old.bin" Resultset.yes example_cursor
                        example_disk)) !! "/out/old.bin"%string
     = Some "7"%string
  /\ snd (Resultset.toFile "/readonly/x.bin" Resultset.no exhausted_cursor example_disk)
     = example_disk.
Proof.
  destruct (toFile_writes_column0 "/out/old.bin" Resultset.no example_cursor
              example_disk) as (H1 & _).
  destruct (toFile_writes_column0 "/out/old.bin" Resultset.yes example_cursor
              example_disk) as (_ & H2 & _).
  destruct (toFile_writes_column0 "/readonly/x.bin" Resultset.no exhausted_cursor
              example_disk) as (_ & H3 & _).
  split; [apply H1; [eexists; reflexivity | reflexivity] |].
  destruct (H2 (or_intror eq_refl)) as (Hsize & Hw & _).
  split; [exact Hsize |]. split; [exact (proj1 (Hw eq_refl)) |].
  destruct (H3 (or_introl eq_refl)) as (_ & _ & Hro).
  exact (Hro eq_refl).
Defined.

(** ** The cursor invariant under every operation *)

(** Every operation leaves the statement, [hasRow] and the column objects
    alone, or does so and then makes the one step. *)
Lemma run_op_shape rs op :
  exists q,
    let rs_q := Resultset.mk (Resultset.stmnt rs) (Resultset.hasRow rs) q
                             (Resultset.columns rs) in
    run_op rs op = rs_q \/ run_op rs op = snd (Resultset.step rs_q).
Proof.
  assert (Hself : rs = Resultset.mk (Resultset.stmnt rs) (Resultset.hasRow rs)
                         (Resultset.columnPosn rs) (Resultset.columns rs))
    by (now destruct rs).
  destruct op as [| | Ts order | c]; simpl.
  - exists (Resultset.columnPosn rs). rewrite <- Hself.
    unfold Resultset.row. destruct (Resultset.hasRow rs); simpl; [| now left].
    destruct (collect _ _); [| now left].
    right. unfold bindM, ret. now destruct (Resultset.step rs) as [[[] | e] rs1].
  - exists (Resultset.columnPosn rs). rewrite <- Hself.
    unfold Resultset.rowS. destruct (Resultset.hasRow rs); simpl; [| now left].
    destruct (collect _ _); [| now left].
    right. unfold bindM, ret. now destruct (Resultset.step rs) as [[[] | e] rs1].
  - unfold Resultset.rowT. destruct (Resultset.hasRow rs) eqn:Hrow; simpl;
      [| exists (Resultset.columnPosn rs); left; exact Hself].
    unfold bindM, Resultset.checkTypeCount, const_call.
    destruct (negb _); simpl;
      [exists (Resultset.columnPosn rs); left; exact Hself |].
    pose proof (readTuple_frame Ts order rs) as Hfr. simpl in Hfr.
    destruct (Resultset.readTuple Ts order rs) as [[tup | e] rs1]; simpl in *;
      destruct Hfr as (Hs & Hh & Hc & _);
      exists (Resultset.columnPosn rs1);
      assert (Hrs1 : rs1 = Resultset.mk (Resultset.stmnt rs) true
                             (Resultset.columnPosn rs1) (Resultset.columns rs))
        by (destruct rs1; simpl in *; congruence);
      rewrite <- Hrs1.
    + right. unfold ret. now destruct (Resultset.step rs1) as [[[] | e] rs2].
    + now left.
  - exists (Resultset.columnPosn rs + 1). left. apply run_seq_call_state.
Qed.

(** Started from a freshly constructed cursor, and as long as the engine
    reports no error, whatever sequence of bulk and sequential accessors a
    caller makes (catching the exceptions they throw) leaves the cursor
    well formed: the column objects are in place, one per selected column,
    and the cursor is empty exactly when the statement points at no row. *)
Theorem cursor_invariant (st : sqlite3_stmt) (rs : Resultset.t)
    (ops : list CursorOp) :
  stmt_ok st ->
  Forall no_error (st_script st) ->
  Resultset.new st = Ok rs ->
  let rs' := fold_left run_op ops rs in
  cursor_ok rs'
  /\ (Resultset.empty rs' = true <-> st_row (Resultset.stmnt rs') = None)
  /\ Resultset.columns rs' = Resultset.columns rs.
Proof.
  intros Hst Hne Hnew rs'. subst rs'.
  set (steady := fun r : Resultset.t =>
         cursor_ok r
         /\ (Resultset.hasRow r = false -> st_row (Resultset.stmnt r) = None)
         /\ Forall no_error (st_script (Resultset.stmnt r))
         /\ Resultset.columns r = Resultset.columns rs).
  assert (Hstep : forall r, steady r -> steady (snd (Resultset.step r))).
  { intros r (Hok & Hsync & Herr & Hcols).
    pose proof Hok as (Hstok & _).
    destruct (step_next r Hstok) as (_ & _ & _ & Hscr & Hc & Hnext).
    assert (Hfst : fst (Resultset.step r) = Ok tt
                   /\ (Resultset.hasRow (snd (Resultset.step r)) = false ->
                       st_row (Resultset.stmnt (snd (Resultset.step r))) = None)).
    { unfold next_outcome in Hnext.
      destruct (st_script (Resultset.stmnt r)) as [| [cells | | code] rest].
      - destruct Hnext as (H1 & _ & _ & H4). auto.
      - destruct Hnext as (H1 & H2 & _). split; [exact H1 | congruence].
      - destruct Hnext as (H1 & _ & _ & H4). auto.
      - inversion Herr as [| o l Hbad _]. contradiction. }
    destruct Hfst as [Hfst Hsync'].
    split; [now apply step_cursor_ok |]. split; [exact Hsync' |].
    split; [| congruence].
    rewrite Hscr. destruct (st_script (Resultset.stmnt r)); [constructor |].
    now inversion Herr. }
  assert (Hop : forall op r, steady r -> steady (run_op r op)).
  { intros op r Hr. destruct (run_op_shape r op) as (q & [Hq | Hq]); rewrite Hq.
    - exact Hr.
    - apply Hstep. exact Hr. }
  assert (Hall : forall l r, steady r -> steady (fold_left run_op l r)).
  { induction l as [| op l IH]; intros r Hr; [exact Hr |].
    simpl. apply IH. now apply Hop. }
  assert (H0 : steady rs).
  { destruct (new_cursor_ok st rs Hst Hnew) as (Hok & _ & Hstmt & Hh).
    split; [exact Hok |]. split; [| split; [| reflexivity]].
    - intros Hrow. rewrite Hstmt. unfold sqlite3_step.
      unfold next_outcome in Hh.
      destruct (st_script st) as [| [cells | | code] rest]; try reflexivity.
      congruence.
    - rewrite Hstmt. unfold sqlite3_step.
      destruct (st_script st) as [| [cells | | code] rest]; simpl;
        try constructor; now inversion Hne. }
  destruct (Hall ops rs H0) as (Hok & Hsync & _ & Hcols).
  split; [exact Hok |]. split; [| exact Hcols].
  unfold Resultset.empty. split.
  - intros He. apply Hsync. now destruct (Resultset.hasRow _).
  - intros Hnone. destruct Hok as (_ & _ & _ & Hhas).
    destruct (Resultset.hasRow _); [| reflexivity].
    now contradiction (Hhas eq_refl).
Qed.

Lemma cursor_invariant_witness :
  cursor_ok (fold_left run_op
               [op_seq seq_nextField; op_rowT [T_int; T_string] [1; 0]%nat;
                op_row; op_rowS]
               example_cursor)
  /\ Resultset.empty (fold_left run_op
                        [op_seq seq_nextField; op_rowT [T_int; T_string] [1; 0]%nat;
                         op_row; op_rowS]
                        example_cursor) = true.
Proof.
  destruct (cursor_invariant example_stmt example_cursor
              [op_seq seq_nextField; op_rowT [T_int; T_string] [1; 0]%nat;
               op_row; op_rowS]
              example_stmt_ok ltac:(repeat constructor) eq_refl) as (H1 & H2 & _).
  split; [exact H1 |]. apply H2. reflexivity.
Defined.

(** ** The bulk accessors on a well-formed cursor, and after a failed step *)

(** On a well-formed cursor that is exhausted, [row] and [rowS] return "no
    value" and leave the cursor as it is.  With a row available they
    materialize every column of the current row, step the statement exactly
    once, and return the row that was current before the step: the cursor
    has a row afterwards when the engine reports one and is exhausted when
    it reports done; an engine error surfaces as the step error, after the
    step has been made. *)
Theorem row_rowS_materialize_then_advance (rs : Resultset.t) :
  cursor_ok rs ->
  (Resultset.hasRow rs = false ->
     Resultset.row rs = (Ok None, rs) /\ Resultset.rowS rs = (Ok None, rs))
  /\ (Resultset.hasRow rs = true ->
        let rs' := snd (Resultset.step rs) in
        Resultset.stmnt rs' = snd (sqlite3_step (Resultset.stmnt rs))
        /\ st_log (Resultset.stmnt rs') = st_log (Resultset.stmnt rs) ++ [call_step]
        /\ match next_outcome (Resultset.stmnt rs) with
           | OutRow cells =>
               Resultset.row rs = (Ok (Some (rendered_row (Resultset.stmnt rs))), rs')
               /\ Resultset.rowS rs = (Ok (Some (rendered_rowS (Resultset.stmnt rs))), rs')
               /\ Resultset.hasRow rs' = true
               /\ st_row (Resultset.stmnt rs') = Some cells
           | OutDone =>
               Resultset.row rs = (Ok (Some (rendered_row (Resultset.stmnt rs))), rs')
               /\ Resultset.rowS rs = (Ok (Some (rendered_rowS (Resultset.stmnt rs))), rs')
               /\ Resultset.hasRow rs' = false
               /\ st_row (Resultset.stmnt rs') = None
           | OutError code =>
               exists e,
                 StepError e
                 /\ Resultset.row rs = (Throw e, rs')
                 /\ Resultset.rowS rs = (Throw e, rs')
           end).
Proof.
  intros Hok. split.
  - intros Hrow. unfold Resultset.row, Resultset.rowS.
    rewrite Hrow. simpl. auto.
  - intros Hrow rs'. subst rs'.
    destruct Hok as (Hst & Hrest). pose proof (conj Hst Hrest) as Hok.
    destruct (step_next rs Hst) as (Hstmt & Hlog & _ & _ & _ & Hnext).
    split; [exact Hstmt |]. split; [exact Hlog |].
    rewrite (row_has_row rs Hok Hrow), (rowS_has_row rs Hok Hrow).
    destruct (next_outcome (Resultset.stmnt rs)) as [cells | | code].
    + destruct Hnext as (Hr & Hh & _ & Hc). rewrite Hr. auto.
    + destruct Hnext as (Hr & Hh & _ & Hc). rewrite Hr. auto.
    + destruct Hnext as (Hr & _). rewrite Hr. eexists. split; [| split; reflexivity].
      exists code. reflexivity.
Qed.

Lemma row_rowS_materialize_then_advance_witness :
  Resultset.row example_cursor
  = (Ok (Some [("id", "7"); ("name", "ann")]%string), snd (Resultset.step example_cursor))
  /\ Resultset.hasRow (snd (Resultset.step example_cursor)) = true
  /\ Resultset.row exhausted_cursor = (Ok None, exhausted_cursor).
Proof.
  destruct (row_rowS_materialize_then_advance example_cursor example_cursor_ok)
    as (_ & Hrow).
  destruct (Hrow eq_refl) as (_ & _ & H1 & _ & H2 & _).
  destruct (row_rowS_materialize_then_advance exhausted_cursor exhausted_cursor_ok)
    as (Hnone & _).
  destruct (Hnone eq_refl) as (H3 & _).
  split; [exact H1 | split; [exact H2 | exact H3]].
Defined.

(** When the step that [row] makes fails, [row] throws the step error and
    the cursor keeps saying that it has a row while the statement points at
    none: it is no longer well formed.  Called again on that cursor, with an
    engine that now answers, [row] and [rowS] return an empty row, neither
    "no value" nor a row of the statement's columns, and step once more. *)
Theorem row_after_failed_step (rs : Resultset.t) (code : Z) :
  cursor_ok rs ->
  Resultset.hasRow rs = true ->
  next_outcome (Resultset.stmnt rs) = OutError code ->
  let rs1 := snd (Resultset.row rs) in
  fst (Resultset.row rs)
  = Throw (runtime_error ("Resultset::step error: " +:+ to_string code))
  /\ Resultset.empty rs1 = false
  /\ st_row (Resultset.stmnt rs1) = None
  /\ ~ cursor_ok rs1
  /\ (no_error (next_outcome (Resultset.stmnt rs1)) ->
      fst (Resultset.row rs1) = Ok (Some [])
      /\ fst (Resultset.rowS rs1) = Ok (Some [])
      /\ st_log (Resultset.stmnt (snd (Resultset.row rs1)))
         = st_log (Resultset.stmnt rs) ++ [call_step; call_step]).
Proof.
  intros Hok Hrow Hnext rs1. subst rs1.
  rewrite (row_has_row rs Hok Hrow).
  pose proof Hok as (Hst & _).
  destruct (step_next rs Hst) as (_ & Hlog & Hnames & Hscript & _ & Hcase).
  rewrite Hnext in Hcase. destruct Hcase as (Hthrow & Hh & _ & Hnone).
  rewrite Hthrow. cbn [fst snd].
  set (rs1 := snd (Resultset.step rs)) in *.
  assert (Hrow1 : Resultset.hasRow rs1 = true) by congruence.
  split; [reflexivity |].
  split; [unfold Resultset.empty; now rewrite Hrow1 |].
  split; [exact Hnone |].
  split.
  { intros (_ & _ & _ & Hhas). now apply (Hhas Hrow1). }
  intros Hanswer.
  assert (Hst1 : stmt_ok (Resultset.stmnt rs1)).
  { destruct Hst as [Hfor _]. unfold stmt_ok.
    rewrite Hnames, Hscript, Hnone. split; [| exact I].
    destruct (st_script (Resultset.stmnt rs)); [constructor | now inversion Hfor]. }
  destruct (row_without_current_row rs1 Hrow1 Hnone) as [Hr HrS].
  destruct (step_next rs1 Hst1) as (_ & Hlog1 & _ & _ & _ & Hcase1).
  rewrite Hr, HrS. cbn [fst snd]. rewrite Hlog1, Hlog, <- app_assoc.
  destruct (next_outcome (Resultset.stmnt rs1)); try contradiction;
    destruct Hcase1 as (Hok1 & _); rewrite Hok1; auto.
Qed.

Lemma row_after_failed_step_witness :
  fst (Resultset.row locked_cursor) = Throw (runtime_error "Resultset::step error: 5")
  /\ Resultset.empty (snd (Resultset.row locked_cursor)) = false
  /\ fst (Resultset.row (snd (Resultset.row locked_cursor))) = Ok (Some []).
Proof.
  assert (Hst : stmt_ok locked_stmt).
  { unfold stmt_ok, locked_stmt; simpl. split; [| exact I].
    repeat constructor; discriminate. }
  assert (Hok : cursor_ok locked_cursor).
  { apply (new_cursor_ok locked_stmt locked_cursor Hst). reflexivity. }
  destruct (row_after_failed_step locked_cursor 5 Hok eq_refl eq_refl)
    as (H1 & H2 & _ & _ & H3).
  split; [exact H1 |]. split; [exact H2 |].
  exact (proj1 (H3 I)).
Defined.
